(** * PySD model builder ([pysd/py_backend/builder.py])

    A shallow embedding of the assembly stage of the PySD translator: the
    element merger, the element assembler, the stock / delay builders, the
    external-object builders with their name registry, the function-call
    builder and the model assembler, followed by the properties proved of
    them.

    Python strings are byte strings here ([string]); the module-level
    globals [build_names] and [import_modules] are threaded explicitly
    through a state-and-exception monad, and a raised exception leaves the
    state as it was mutated up to the raise. *)

From Stdlib Require Import Ascii.
From stdpp Require Import base strings gmap list pretty.

(** ** Python string primitives *)

Module Str.

Definition nl : string := String "010"%char EmptyString.
Definition tab : string := String "009"%char EmptyString.
Definition dquote : string := String "034"%char EmptyString.
Definition backslash : string := String "092"%char EmptyString.

(** [s.startswith(p)] *)
Fixpoint startswith (p s : string) : bool :=
  match p, s with
  | EmptyString, _ => true
  | String a p', String b s' => if Ascii.eqb a b then startswith p' s' else false
  | String _ _, EmptyString => false
  end.

(** [p in s] *)
Fixpoint contains (p s : string) : bool :=
  startswith p s ||
  match s with
  | EmptyString => false
  | String _ s' => contains p s'
  end.

(** [s.split(sep)[0]] for a non-empty separator: the text in front of the
    first occurrence of [sep], the whole of [s] when there is none. *)
Fixpoint split_head (sep s : string) : string :=
  if startswith sep s then EmptyString
  else match s with
       | EmptyString => EmptyString
       | String c s' => String c (split_head sep s')
       end.

(** [s.replace(old, new)] for a non-empty [old]: occurrences are taken
    left to right and do not overlap; [skip] counts the characters of the
    occurrence just replaced that are still to be passed over. *)
Fixpoint replace_from (old new : string) (skip : nat) (s : string) : string :=
  match s with
  | EmptyString => EmptyString
  | String c s' =>
      match skip with
      | S k => replace_from old new k s'
      | O => if startswith old s
             then new +:+ replace_from old new (String.length old - 1) s'
             else String c (replace_from old new 0 s')
      end
  end.

Definition replace (old new s : string) : string := replace_from old new 0 s.

(** [sep.join(l)] *)
Fixpoint join (sep : string) (l : list string) : string :=
  match l with
  | [] => EmptyString
  | [x] => x
  | x :: l' => x +:+ sep +:+ join sep l'
  end.

(** [c * n] *)
Fixpoint repeat (c : string) (n : nat) : string :=
  match n with
  | O => EmptyString
  | S n' => c +:+ repeat c n'
  end.

Definition lower_ascii (c : ascii) : ascii :=
  let n := nat_of_ascii c in
  if (65 <=? n)%nat && (n <=? 90)%nat then ascii_of_nat (n + 32) else c.

(** [s.lower()], on the ASCII letters. *)
Fixpoint lower (s : string) : string :=
  match s with
  | EmptyString => EmptyString
  | String c s' => String (lower_ascii c) (lower s')
  end.

Fixpoint lstrip (ch : ascii) (s : string) : string :=
  match s with
  | String c s' => if Ascii.eqb c ch then lstrip ch s' else s
  | EmptyString => EmptyString
  end.

Fixpoint rstrip (ch : ascii) (s : string) : string :=
  match s with
  | EmptyString => EmptyString
  | String c s' =>
      match rstrip ch s' with
      | EmptyString => if Ascii.eqb c ch then EmptyString else String c EmptyString
      | r => String c r
      end
  end.

(** [s.strip(ch)] for a single character [ch]. *)
Definition strip (ch : ascii) (s : string) : string := rstrip ch (lstrip ch s).

(** The characters of a string, as Python iterates over it. *)
Fixpoint chars (s : string) : list string :=
  match s with
  | EmptyString => []
  | String c s' => String c EmptyString :: chars s'
  end.

(** [s.split('\n')] *)
Fixpoint lines (s : string) : list string :=
  match s with
  | EmptyString => [EmptyString]
  | String c s' =>
      if Ascii.eqb c "010"%char then EmptyString :: lines s'
      else match lines s' with
           | l :: ls => String c l :: ls
           | [] => [String c EmptyString]
           end
  end.

Definition is_blank (c : ascii) : bool :=
  Ascii.eqb c " "%char || Ascii.eqb c "009"%char.

(** The leading run of spaces and tabs of a line. *)
Fixpoint indent_of (l : string) : string :=
  match l with
  | String c l' => if is_blank c then String c (indent_of l') else EmptyString
  | EmptyString => EmptyString
  end.

Fixpoint all_blank (l : string) : bool :=
  match l with
  | String c l' => is_blank c && all_blank l'
  | EmptyString => true
  end.

Fixpoint common_prefix (a b : string) : string :=
  match a, b with
  | String x a', String y b' =>
      if Ascii.eqb x y then String x (common_prefix a' b') else EmptyString
  | _, _ => EmptyString
  end.

Fixpoint drop_prefix (p s : string) : string :=
  match p, s with
  | String _ p', String _ s' => drop_prefix p' s'
  | _, _ => s
  end.

(** The margin [textwrap.dedent] computes: the longest common leading
    whitespace of the lines that hold something else than blanks. *)
Fixpoint margin_of (ls : list string) (margin : option string) : option string :=
  match ls with
  | [] => margin
  | l :: ls' =>
      if all_blank l then margin_of ls' margin
      else margin_of ls'
             (Some match margin with
                   | None => indent_of l
                   | Some m => common_prefix m (indent_of l)
                   end)
  end.

(** [textwrap.dedent(text)]: lines of blanks only become empty, and the
    common margin is taken off every line that starts with it. *)
Definition dedent (text : string) : string :=
  let ls := (λ l, if all_blank l then EmptyString else l) <$> lines text in
  match margin_of ls None with
  | Some (String c m) =>
      join nl ((λ l, if startswith (String c m) l
                     then drop_prefix (String c m) l else l) <$> ls)
  | _ => join nl ls
  end.

End Str.

(** ** Exceptions and the builder monad *)

Inductive error : Type :=
  | AttributeError (msg : string)
  | IndexError
  | KeyError (key : string)
  | TypeError (msg : string)
  | ValueError (msg : string)
  | OSError (msg : string)
  | FormatterError.

Inductive result (A : Type) : Type :=
  | Ok (a : A)
  | Err (e : error).

Arguments Ok {A} a.
Arguments Err {A} e.

Definition result_bind {A B} (r : result A) (k : A → result B) : result B :=
  match r with
  | Ok a => k a
  | Err e => Err e
  end.

(** [l[i]] for a non-negative index. *)
Definition index {A} (l : list A) (i : nat) : result A :=
  match l !! i with
  | Some a => Ok a
  | None => Err IndexError
  end.

(** [template % args] for string arguments: [%s] takes the next argument,
    [%%] is a percent sign, and the value substituted is not scanned again. *)
Fixpoint percent_format (template : string) (args : list string) : result string :=
  match template with
  | EmptyString =>
      match args with
      | [] => Ok EmptyString
      | _ :: _ => Err (TypeError "not all arguments converted during string formatting")
      end
  | String c t =>
      if Ascii.eqb c "%"%char then
        match t with
        | EmptyString => Err (ValueError "incomplete format")
        | String d t' =>
            if Ascii.eqb d "s"%char then
              match args with
              | a :: args' => result_bind (percent_format t' args') (λ r, Ok (a +:+ r))
              | [] => Err (TypeError "not enough arguments for format string")
              end
            else if Ascii.eqb d "%"%char then
              result_bind (percent_format t' args) (λ r, Ok (String "%"%char r))
            else Err (ValueError "unsupported format character")
        end
      else result_bind (percent_format t args) (λ r, Ok (String c r))
  end.

(** The dictionary [import_modules]. *)
Record import_modules_t : Type := ImportModules {
  numpy : bool;
  xarray : bool;
  subs_flag : bool;
  functions : gset string;
  external : gset string;
  utils : gset string
}.

(** The two module-level globals, and the warnings issued so far. *)
Record globals : Type := Globals {
  build_names : gset string;
  import_modules : import_modules_t;
  warnings : list string
}.

Definition empty_imports : import_modules_t :=
  ImportModules false false false ∅ ∅ ∅.

(** The globals as the module defines them when it is loaded. *)
Definition initial_globals : globals := Globals ∅ empty_imports [].

Definition M (A : Type) : Type := globals → result A * globals.

Definition ret {A} (a : A) : M A := λ g, (Ok a, g).

Definition raise {A} (e : error) : M A := λ g, (Err e, g).

Definition bind {A B} (m : M A) (k : A → M B) : M B :=
  λ g, match m g with
       | (Ok a, g') => k a g'
       | (Err e, g') => (Err e, g')
       end.

Definition lift {A} (r : result A) : M A := λ g, (r, g).

Definition modify (f : globals → globals) : M unit := λ g, (Ok tt, f g).

Definition get : M globals := λ g, (Ok g, g).

Declare Scope builder_scope.
Delimit Scope builder_scope with builder.
Notation "'let*' x ':=' m 'in' k" := (bind m (fun x => k))
  (at level 10, x name, m at level 200, k at level 200,
   format "'[v' 'let*'  x  :=  m  'in' '/' k ']'") : builder_scope.
Open Scope builder_scope.

Definition set_imports (f : import_modules_t → import_modules_t) : M unit :=
  modify (λ g, Globals (build_names g) (f (import_modules g)) (warnings g)).

(** [import_modules['functions'].add(name)] *)
Definition import_function (name : string) : M unit :=
  set_imports (λ im, ImportModules (numpy im) (xarray im) (subs_flag im)
                       ({[name]} ∪ functions im) (external im) (utils im)).

(** [import_modules['external'].add(name)] *)
Definition import_external (name : string) : M unit :=
  set_imports (λ im, ImportModules (numpy im) (xarray im) (subs_flag im)
                       (functions im) ({[name]} ∪ external im) (utils im)).

(** [import_modules['utils'].add(name)] *)
Definition import_utils (name : string) : M unit :=
  set_imports (λ im, ImportModules (numpy im) (xarray im) (subs_flag im)
                       (functions im) (external im) ({[name]} ∪ utils im)).

(** [import_modules['subs'] = True] *)
Definition import_subs : M unit :=
  set_imports (λ im, ImportModules (numpy im) (xarray im) true
                       (functions im) (external im) (utils im)).

(** [build_names.add(name)] *)
Definition register_name (name : string) : M unit :=
  modify (λ g, Globals ({[name]} ∪ build_names g) (import_modules g) (warnings g)).

(** [warnings.warn(msg)] *)
Definition warn (msg : string) : M unit :=
  modify (λ g, Globals (build_names g) (import_modules g) (warnings g ++ [msg])%list).

(** ** Data model *)

(** The value of an element's ['subs'] entry: a list of subscript names, the
    empty string the stateful builders put there, or [None]. *)
Inductive subs_t : Type :=
  | SubsList (l : list string)
  | SubsStr (s : string)
  | SubsNone.

(** [subs not in ['', [], None]] *)
Definition subs_given (s : subs_t) : bool :=
  match s with
  | SubsList [] => false
  | SubsList (_ :: _) => true
  | SubsStr EmptyString => false
  | SubsStr (String _ _) => true
  | SubsNone => false
  end.

(** [for sub in subs] *)
Definition subs_items (s : subs_t) : list string :=
  match s with
  | SubsList l => l
  | SubsStr s => Str.chars s
  | SubsNone => []
  end.

(** An element dictionary.  Before merging, [py_expr], [subs] and [eqn] hold
    one value each ([element]); after merging they hold a list
    ([merged_element]).  ['expr'] is a key only some fragments carry. *)
Record element_of (E S Q : Type) : Type := Element {
  py_name : string;
  real_name : string;
  doc : string;
  py_expr : E;
  unit : string;
  subs : S;
  lims : string;
  eqn : Q;
  expr : option string;
  kind : string;
  arguments : string
}.

Arguments Element {E S Q}.
Arguments py_name {E S Q}.
Arguments real_name {E S Q}.
Arguments doc {E S Q}.
Arguments py_expr {E S Q}.
Arguments unit {E S Q}.
Arguments subs {E S Q}.
Arguments lims {E S Q}.
Arguments eqn {E S Q}.
Arguments expr {E S Q}.
Arguments kind {E S Q}.
Arguments arguments {E S Q}.

Definition element : Type := element_of string subs_t string.
Definition merged_element : Type := element_of (list string) (list subs_t) (list string).

(** Subscript families with their members, and the coordinates of a
    fragment; both are dictionaries read in insertion order. *)
Definition subscript_dict : Type := list (string * list string).
Definition coord_dict : Type := list (string * list string).

(** ** What the builder takes from outside

    [pysd.py_backend.utils], [pysd._version], [black], [os.path] and the
    renderings Python's [repr] gives are not part of this module; the
    builder is stated over them. *)
Class Externals : Type := {
  (** [utils.make_python_identifier(s)[0]] *)
  make_python_identifier : string → string;
  (** [utils.make_coord_dict(subs, subscript_dict, terse=False)] *)
  make_coord_dict : subs_t → subscript_dict → coord_dict;
  (** [utils.find_subscript_name(subscript_dict, sub)] *)
  find_subscript_name : subscript_dict → string → option string;
  (** [repr(s)] for a string [s] *)
  repr_str : string → string;
  (** [black.format_file_contents(text, fast=True, mode=black.FileMode())] *)
  black_format : string → result string;
  (** [os.path.basename] *)
  basename : string → string;
  (** [open(outfile_name, 'w', encoding='UTF-8')] followed by
      [out.write(text)]: the exception raised, if any *)
  write_file : string → string → result Datatypes.unit;
  (** [pysd._version.__version__] *)
  version : string
}.

(** [repr] of [None] or a string, of a list and of a dictionary. *)
Definition repr_opt `{Externals} (o : option string) : string :=
  match o with
  | Some s => repr_str s
  | None => "None"
  end.

Definition repr_list (items : list string) : string :=
  "[" +:+ Str.join ", " items +:+ "]".

Definition repr_dict (items : list (string * string)) : string :=
  "{" +:+ Str.join ", " ((λ kv, kv.1 +:+ ": " +:+ kv.2) <$> items) +:+ "}".

Definition repr_str_list `{Externals} (l : list string) : string :=
  repr_list (repr_str <$> l).

Definition repr_coords `{Externals} (c : list (string * list string)) : string :=
  repr_dict ((λ kv, (repr_str kv.1, repr_str_list kv.2)) <$> c).

Definition repr_namespace `{Externals} (n : list (string * string)) : string :=
  repr_dict ((λ kv, (repr_str kv.1, repr_str kv.2)) <$> n).

(** ** [merge_partial_elements] *)

(** [x or y] on strings. *)
Definition str_or (x y : string) : string :=
  match x with
  | EmptyString => y
  | String _ _ => x
  end.

(** [element['expr'] if 'expr' in element else element['eqn']], with the
    escaped blanks taken out. *)
Definition eqn_text (e : element) : string :=
  Str.replace (Str.backslash +:+ " ") ""
    match expr e with
    | Some x => x
    | None => eqn e
    end.

(** The entry made for the first fragment of a name. *)
Definition first_entry (e : element) : merged_element :=
  {| py_name := py_name e;
     real_name := real_name e;
     doc := doc e;
     py_expr := [py_expr e];
     unit := unit e;
     subs := [subs e];
     lims := lims e;
     eqn := [eqn_text e];
     expr := None;
     kind := kind e;
     arguments := arguments e |}.

(** The entry of a name after one more fragment of it. *)
Definition add_fragment (o : merged_element) (e : element) : merged_element :=
  {| py_name := py_name o;
     real_name := real_name o;
     doc := str_or (doc o) (doc e);
     py_expr := (py_expr o ++ [py_expr e])%list;
     unit := str_or (unit o) (unit e);
     subs := (subs o ++ [subs e])%list;
     lims := str_or (lims o) (lims e);
     eqn := (eqn o ++ [eqn_text e])%list;
     expr := None;
     kind := kind o;
     arguments := arguments e |}.

(** [outs[name]] is updated in place when [name] is a key of [outs]; the
    dictionary keeps its keys in the order they were first inserted. *)
Fixpoint update_entry (outs : list (string * merged_element)) (name : string)
    (e : element) : option (list (string * merged_element)) :=
  match outs with
  | [] => None
  | (k, o) :: outs' =>
      if bool_decide (k = name) then Some ((k, add_fragment o e) :: outs')
      else match update_entry outs' name e with
           | Some r => Some ((k, o) :: r)
           | None => None
           end
  end.

(** One turn of the loop over [element_list]. *)
Definition merge_step (outs : list (string * merged_element)) (e : element)
    : list (string * merged_element) :=
  if bool_decide (py_expr e = "None") then outs
  else match update_entry outs (py_name e) e with
       | Some outs' => outs'
       | None => (outs ++ [(py_name e, first_entry e)])%list
       end.

Definition merge_partial_elements (element_list : list element) : list merged_element :=
  snd <$> foldl merge_step [] element_list.

(** ** [build_element] *)

(** The decorator chosen from ['kind']; any other kind raises. *)
Definition cache_type_of (k : string) : result string :=
  if bool_decide (k = "constant") then Ok "@cache.run"
  else if bool_decide (k ∈ ["component"; "component_ext_data"]) then Ok "@cache.step"
  else if bool_decide (k = "lookup") then Ok ""
  else if bool_decide (k ∈ ["setup"; "stateful"; "external"; "external_add"]) then Ok ""
  else Err (AttributeError "Bad value for 'kind'").

(** [["ADD" not in py_expr for py_expr in element['py_expr']]] *)
Definition no_ADD (py_exprs : list string) : list bool :=
  (λ e, negb (Str.contains "ADD" e)) <$> py_exprs.

(** [sum(l)] for a list of booleans. *)
Definition sum_bools (l : list bool) : nat :=
  length (filter (λ b, b = true) l).

(** ['rearrange(%s, %s, %s)' % (py_expr, dims, coords)] *)
Definition rearrange_call `{Externals} (e : string) (s : subs_t) (sd : subscript_dict)
    : string :=
  let coords := make_coord_dict s sd in
  let dims := fst <$> coords in
  "rearrange(" +:+ e +:+ ", " +:+ repr_str_list dims +:+ ", " +:+ repr_coords coords +:+ ")".

(** The loop over [enumerate(zip(element['py_expr'], element['subs']))];
    [py_expr_no_ADD] already has the extra [True] at its end, [i] is the
    position of the head of [fragments]. *)
Fixpoint combine_fragments `{Externals} (py_expr_no_ADD : list bool) (sd : subscript_dict)
    (i : nat) (fragments : list (string * subs_t)) (py_expr_i : list string)
    : M (list string) :=
  match fragments with
  | [] => ret py_expr_i
  | (e, s) :: rest =>
      let* this := lift (index py_expr_no_ADD i) in
      if this then
        let* next := lift (index py_expr_no_ADD (i + 1)) in
        if next then
          let* _ := import_utils "rearrange" in
          combine_fragments py_expr_no_ADD sd (S i) rest
            (py_expr_i ++ [rearrange_call e s sd])%list
        else
          combine_fragments py_expr_no_ADD sd (S i) rest (py_expr_i ++ [e])%list
      else
        combine_fragments py_expr_no_ADD sd (S i) rest py_expr_i
  end.

(** The expression the element returns: the fragments merged when more than
    one of them is free of ["ADD"], the first fragment otherwise. *)
Definition element_expression `{Externals} (py_exprs : list string) (subss : list subs_t)
    (sd : subscript_dict) : M string :=
  let py_expr_no_ADD := no_ADD py_exprs in
  if (1 <? sum_bools py_expr_no_ADD)%nat then
    let* py_expr_i := combine_fragments (py_expr_no_ADD ++ [true])%list sd 0
                   (zip py_exprs subss) [] in
    let* _ := import_utils "xrmerge" in
    ret ("xrmerge([" +:+ Str.join ("," +:+ Str.nl) py_expr_i +:+ ",])")
  else lift (index py_exprs 0).

(** [element['subs_dec']] and [element['subs_doc']]. *)
Definition subs_decoration `{Externals} (k : string) (subss : list subs_t)
    (sd : subscript_dict) : M (string * string) :=
  let* first_subs := lift (index subss 0) in
  if subs_given first_subs then
    let dims := repr_list (repr_opt <$> (find_subscript_name sd <$> subs_items first_subs)) in
    if bool_decide (k ∈ ["component"; "setup"]) then
      let* _ := import_subs in
      ret ("@subs(" +:+ dims +:+ ", _subscript_dict)", dims)
    else ret ("", dims)
  else ret ("", "None").

(** The original equations as the docstring shows them. *)
Definition eqn_lines (eqns : list string) : string :=
  let sep := Str.nl +:+ Str.repeat " " 10 in
  match eqns with
  | [e] => e
  | _ =>
      if (5 <? length eqns)%nat then
        sep +:+ default "" (head eqns) +:+ Str.repeat (sep +:+ "  .") 3
            +:+ sep +:+ default "" (last eqns)
      else sep +:+ Str.join sep eqns
  end.

(** The text of an object assignment, of an [.add] statement and of a
    function definition, as the templates spell them before dedenting. *)
Definition assignment_text (name e : string) : string :=
  Str.nl +:+ "    " +:+ name +:+ " = " +:+ e +:+ Str.nl +:+ "            ".

Definition add_statement_text (name e : string) : string :=
  Str.nl +:+ "    " +:+ name +:+ e +:+ Str.nl +:+ "            ".

Definition function_text (element : merged_element)
    (cache subs_dec subs_doc eqn_doc doc_text contents : string) : string :=
  let q3 := Str.dquote +:+ Str.dquote +:+ Str.dquote in
  Str.nl +:+ "    " +:+ cache +:+
  Str.nl +:+ "    " +:+ subs_dec +:+
  Str.nl +:+ "    def " +:+ py_name element +:+ "(" +:+ arguments element +:+ "):" +:+
  Str.nl +:+ "        " +:+ q3 +:+
  Str.nl +:+ "        Real Name: " +:+ real_name element +:+
  Str.nl +:+ "        Original Eqn: " +:+ eqn_doc +:+
  Str.nl +:+ "        Units: " +:+ unit element +:+
  Str.nl +:+ "        Limits: " +:+ lims element +:+
  Str.nl +:+ "        Type: " +:+ kind element +:+
  Str.nl +:+ "        Subs: " +:+ subs_doc +:+
  Str.nl +:+
  Str.nl +:+ "        " +:+ doc_text +:+
  Str.nl +:+ "        " +:+ q3 +:+
  Str.nl +:+ "        " +:+ contents +:+
  Str.nl +:+ "        ".

Definition build_element `{Externals} (element : merged_element) (sd : subscript_dict)
    : M string :=
  let* cache_type := lift (cache_type_of (kind element)) in
  let* e := element_expression (py_expr element) (subs element) sd in
  let contents := "return " +:+ e in
  let* dec := subs_decoration (kind element) (subs element) sd in
  let indent := 8 in
  let contents := Str.replace Str.nl (Str.nl +:+ Str.repeat " " indent) contents in
  let doc_text :=
    Str.replace Str.nl (Str.nl +:+ "    ")
      (Str.replace Str.backslash Str.nl (doc element)) in
  let* func :=
    (if bool_decide (kind element ∈ ["stateful"; "external"]) then
       let* first := lift (index (py_expr element) 0) in
       ret (assignment_text (py_name element) first)
     else if bool_decide (kind element = "external_add") then
       let name := Str.split_head "ADD" (py_name element) in
       let* first := lift (index (py_expr element) 0) in
       ret (add_statement_text name first)
     else
       ret (function_text element cache_type dec.1 dec.2
              (eqn_lines (eqn element)) doc_text contents)) in
  ret (Str.dedent func).

(** ** Stateful construct builders *)

(** The dictionary of an implicit or stateful element; the builders leave
    the ['expr'] key out. *)
Definition new_element (py_name real_name kind py_expr : string) (subs : subs_t)
    (doc unit : string) (arguments : string) : element :=
  {| py_name := py_name;
     real_name := real_name;
     doc := doc;
     py_expr := py_expr;
     unit := unit;
     subs := subs;
     lims := "None";
     eqn := "None";
     expr := None;
     kind := kind;
     arguments := arguments |}.

Definition add_stock (identifier expression initial_condition : string)
    (subs : list string) (sd : subscript_dict) : M (string * list element) :=
  let* _ := import_function "Integ" in
  let* stateful_py_expr :=
    (if bool_decide (length subs = 0) then
       lift (percent_format "Integ(lambda: %s, lambda: %s)"
               [expression; initial_condition])
     else
       lift (percent_format "Integ(lambda: _d%s_dt(), lambda: _init_%s())"
               [identifier; identifier])) in
  let new_structure :=
    if bool_decide (length subs = 0) then []
    else
      [ new_element ("_init_" +:+ identifier) "Implicit" "setup" initial_condition
          (SubsList subs)
          ("Provides initial conditions for " +:+ identifier +:+ " function")
          ("See docs for " +:+ identifier) "";
        new_element ("_d" +:+ identifier +:+ "_dt") "Implicit" "component" expression
          (SubsList subs)
          ("Provides derivative for " +:+ identifier +:+ " function")
          ("See docs for " +:+ identifier) "" ] in
  let stateful :=
    new_element ("_integ_" +:+ identifier) ("Representation of  " +:+ identifier)
      "stateful" stateful_py_expr (SubsStr "")
      ("Integrates Expression " +:+ expression) "None" "" in
  ret (py_name stateful +:+ "()", (new_structure ++ [stateful])%list).

Definition add_n_delay (identifier delay_input delay_time initial_value order : string)
    (subs : list string) (sd : subscript_dict) : M (string * list element) :=
  let* _ := import_function "Delay" in
  let* stateful_py_expr :=
    (if bool_decide (length subs = 0) then
       lift (percent_format "Delay(lambda: %s, lambda: %s,lambda: %s, lambda: %s)"
               [delay_input; delay_time; initial_value; order])
     else
       lift (percent_format
               "Delay(lambda: _delinput_%s(),lambda: _deltime_%s(), lambda: _init_%s(),lambda: %s)"
               [identifier; identifier; identifier; order])) in
  let new_structure :=
    if bool_decide (length subs = 0) then []
    else
      [ new_element ("_init_" +:+ identifier) "Implicit" "setup" initial_value
          (SubsList subs)
          ("Provides initial conditions for " +:+ identifier +:+ " function")
          ("See docs for " +:+ identifier) "";
        new_element ("_deltime_" +:+ identifier) "Implicit" "component" delay_time
          (SubsList subs)
          ("Provides delay time for " +:+ identifier +:+ " function")
          ("See docs for " +:+ identifier) "";
        new_element ("_delinput_" +:+ identifier) "Implicit" "component" delay_input
          (SubsList subs)
          ("Provides input for " +:+ identifier +:+ " function")
          ("See docs for " +:+ identifier) "" ] in
  let stateful :=
    new_element ("_delay_" +:+ identifier) ("Delay of " +:+ delay_input)
      "stateful" stateful_py_expr (SubsStr "")
      ("Delay time: " +:+ delay_time +:+ " " +:+ Str.nl +:+ " Delay initial value "
         +:+ initial_value +:+ " " +:+ Str.nl +:+ " Delay order " +:+ order)
      "None" "" in
  ret (py_name stateful +:+ "()", (new_structure ++ [stateful])%list).

(** Whether a string is a decimal integer literal, the way [int(s)] reads
    one: an optional sign in front of one or more digits.  The builder
    never asks; the documentation of [add_n_delay] does. *)
Definition is_digit (c : ascii) : bool :=
  let n := nat_of_ascii c in (48 <=? n)%nat && (n <=? 57)%nat.

Fixpoint all_digits (s : string) : bool :=
  match s with
  | EmptyString => true
  | String c s' => is_digit c && all_digits s'
  end.

Definition is_int_literal (s : string) : bool :=
  match s with
  | String "+"%char (String c s') | String "-"%char (String c s') => all_digits (String c s')
  | String c s' => all_digits (String c s')
  | EmptyString => false
  end.

(** ** External object builders *)

(** Modelled from the spec: the search [utils.make_add_identifier] (not
    among the sources) makes for its "monotonically incremented numeric
    suffix": [number] goes up as long as [identifier + str(number)] is a
    registered name.  A registry of [n] names stops the search after [n]
    turns at the latest, which is what [fuel] counts. *)
Fixpoint free_number (identifier : string) (names : gset string) (fuel number : nat)
    : nat :=
  match fuel with
  | O => number
  | S fuel' =>
      if bool_decide (identifier +:+ pretty number ∈ names)
      then free_number identifier names fuel' (S number)
      else number
  end.

(** Modelled from the spec: [utils.make_add_identifier] is not among the
    sources.  Section 4.5 has it "derive a distinct suffixed name
    (monotonically incremented numeric suffix, guaranteed unique against the
    registry)", and the callers describe "a new py_name with ADD_# ending".
    The name returned is the identifier followed by [ADD_] and the first
    number from 1 on that gives an unregistered name; the registry it is
    handed is the mutable set [build_names], and the new name is entered
    into it, as uniqueness over repeated requests needs. *)
Definition make_add_identifier (identifier : string) : M string :=
  let* g := get in
  let stem := identifier +:+ "ADD_" in
  let number := free_number stem (build_names g) (size (build_names g)) 1 in
  let* _ := register_name (stem +:+ pretty number) in
  ret (stem +:+ pretty number).

(** [name in build_names] *)
Definition registered (name : string) : M bool :=
  let* g := get in
  ret (bool_decide (name ∈ build_names g)).

(** The [keyword] argument of [add_ext_data] as it is rendered: quoted,
    colons stripped and lowered when it is a string, [None] otherwise. *)
Definition render_keyword (keyword : option string) : string :=
  match keyword with
  | Some k => "'" +:+ Str.lower (Str.strip ":" k) +:+ "'"
  | None => "None"
  end.

Definition add_ext_data `{Externals} (identifier file_name tab time_row_or_col cell : string)
    (subs : list string) (sd : subscript_dict) (keyword : option string)
    : M (string * list element) :=
  let coords := make_coord_dict (SubsList subs) sd in
  let keyword := render_keyword keyword in
  let name := make_python_identifier ("_ext_data_" +:+ identifier) in
  let* _ := import_external "ExtData" in
  let* present := registered name in
  let* nkp :=
    (if present then
       let* name := make_add_identifier name in
       ret (name, "external_add", ".add(%s, %s, %s, %s, %s, %s)")
     else
       let* _ := register_name name in
       ret (name, "external",
            "ExtData(%s, %s, %s, %s, %s, %s,        _root, '" +:+ name +:+ "')")) in
  let '(name, kind, py_expr) := nkp in
  let* py_expr := lift (percent_format py_expr
                          [file_name; tab; time_row_or_col; cell; keyword;
                           repr_coords coords]) in
  let external :=
    new_element name ("External data for " +:+ identifier) kind py_expr
      (SubsList subs) ("Provides data for data variable " +:+ identifier) "None" "" in
  ret (py_name external +:+ "(time())", [external]).

Definition add_ext_constant `{Externals} (identifier file_name tab cell : string)
    (subs : list string) (sd : subscript_dict) : M (string * list element) :=
  let* _ := import_external "ExtConstant" in
  let coords := make_coord_dict (SubsList subs) sd in
  let name := make_python_identifier ("_ext_constant_" +:+ identifier) in
  let* present := registered name in
  let* nkp :=
    (if present then
       let* name := make_add_identifier name in
       ret (name, "external_add", ".add(%s, %s, %s, %s)")
     else
       ret (name, "external",
            "ExtConstant(%s, %s, %s, %s,            _root, '" +:+ name +:+ "')")) in
  let '(name, kind, py_expr) := nkp in
  let* _ := register_name name in
  let* py_expr := lift (percent_format py_expr
                          [file_name; tab; cell; repr_coords coords]) in
  let external :=
    new_element name ("External constant for " +:+ identifier) kind py_expr
      (SubsList subs) ("Provides data for constant data variable " +:+ identifier)
      "None" "" in
  ret (py_name external +:+ "()", [external]).

Definition add_ext_lookup `{Externals} (identifier file_name tab x_row_or_col cell : string)
    (subs : list string) (sd : subscript_dict) : M (string * list element) :=
  let* _ := import_external "ExtLookup" in
  let coords := make_coord_dict (SubsList subs) sd in
  let name := make_python_identifier ("_ext_lookup_" +:+ identifier) in
  let* present := registered name in
  let* nkp :=
    (if present then
       let* name := make_add_identifier name in
       ret (name, "external_add", ".add(%s, %s, %s, %s, %s)")
     else
       ret (name, "external",
            "ExtLookup(%s, %s, %s, %s, %s," +:+ Str.nl +:+ "          _root, '"
              +:+ name +:+ "')")) in
  let '(name, kind, py_expr) := nkp in
  let* _ := register_name name in
  let* py_expr := lift (percent_format py_expr
                          [file_name; tab; x_row_or_col; cell; repr_coords coords]) in
  let external :=
    new_element name ("External lookup data for " +:+ identifier) kind py_expr
      (SubsList subs) ("Provides data for external lookup variable " +:+ identifier)
      "None" "x" in
  ret (py_name external +:+ "(x)", [external]).

(** ** [build_function_call] *)

(** One entry of ['parameters']; ['optional'] and ['type'] may be missing. *)
Record parameter : Type := ParameterDef {
  optional : option bool;
  type : option string
}.

(** A function definition given as a dictionary. *)
Record function_dict : Type := FunctionDict {
  name : string;
  original_name : option string;
  module : option string;
  parameters : option (list parameter)
}.

(** [function_def] is a plain string or a dictionary. *)
Inductive function_def : Type :=
  | FuncStr (f : string)
  | FuncDict (d : function_dict).

(** Where the loop over the parameters stands: still running, with
    [argument_idx] and the [arguments] collected, or left by [break]. *)
Inductive loop_state : Type :=
  | Running (argument_idx : nat) (arguments : list string)
  | Broken (arguments : list string).

Definition collected (st : loop_state) : list string :=
  match st with
  | Running _ arguments => arguments
  | Broken arguments => arguments
  end.

(** The dictionary literal indexed by [parameter_type]. *)
Definition render_parameter (parameter_type user_argument : string) : result string :=
  if bool_decide (parameter_type = "expression") then Ok user_argument
  else if bool_decide (parameter_type = "lambda") then Ok ("lambda: " +:+ user_argument)
  else if bool_decide (parameter_type = "time") then Ok "__data['time']"
  else if bool_decide (parameter_type = "scope") then Ok "__data['scope']"
  else Err (KeyError parameter_type).

(** The body of the loop for one parameter. *)
Definition parameter_step (user_arguments : list string) (st : loop_state)
    (parameter_def : parameter) : result loop_state :=
  match st with
  | Broken arguments => Ok (Broken arguments)
  | Running argument_idx arguments =>
      let is_optional := default false (optional parameter_def) in
      if (length user_arguments <=? argument_idx)%nat && is_optional
      then Ok (Broken arguments)
      else
        let parameter_type := default "expression" (type parameter_def) in
        result_bind (index user_arguments argument_idx) (λ user_argument,
          let argument_idx' :=
            if bool_decide (parameter_type ∈ ["expression"; "lambda"])
            then argument_idx + 1 else argument_idx in
          result_bind (render_parameter parameter_type user_argument) (λ rendered,
            Ok (Running argument_idx' (arguments ++ [rendered])%list)))
  end.

(** The loop over [parameters], from a given state on. *)
Fixpoint walk_parameters (user_arguments : list string) (st : loop_state)
    (params : list parameter) : result loop_state :=
  match params with
  | [] => Ok st
  | parameter_def :: rest =>
      result_bind (parameter_step user_arguments st parameter_def) (λ st',
        walk_parameters user_arguments st' rest)
  end.

(** The import the descriptor asks for under ['module']. *)
Definition import_module (d : function_dict) : M Datatypes.unit :=
  match module d with
  | None => ret tt
  | Some m =>
      if bool_decide (m = "numpy") then
        set_imports (λ im, ImportModules true (xarray im) (subs_flag im)
                             (functions im) (external im) (utils im))
      else if bool_decide (m = "xarray") then
        set_imports (λ im, ImportModules (numpy im) true (subs_flag im)
                             (functions im) (external im) (utils im))
      else if bool_decide (m = "functions") then import_function (name d)
      else if bool_decide (m = "external") then import_external (name d)
      else if bool_decide (m = "utils") then import_utils (name d)
      else if bool_decide (m = "subs")
      then raise (AttributeError "'bool' object has no attribute 'add'")
      else raise (KeyError m)
  end.

(** The user arguments the call is assembled from: for
    [not_implemented_function] the quoted original name goes in front, and
    a warning is issued. *)
Definition effective_arguments (d : function_dict) (user_arguments : list string)
    : M (list string) :=
  if bool_decide (name d = "not_implemented_function") then
    match original_name d with
    | None => raise (KeyError "original_name")
    | Some o =>
        let* _ := warn (Str.nl +:+ Str.nl +:+ "Trying to translate " +:+ o
                        +:+ " which it is not implemented on PySD. The translated "
                        +:+ "model will crash... ") in
        ret (("'" +:+ o +:+ "'") :: user_arguments)
    end
  else ret user_arguments.

Definition build_function_call (fd : function_def) (user_arguments : list string)
    : M string :=
  match fd with
  | FuncStr f => ret (f +:+ "(" +:+ Str.join "," user_arguments +:+ ")")
  | FuncDict d =>
      let* user_arguments := effective_arguments d user_arguments in
      let* _ := import_module d in
      match parameters d with
      | Some params =>
          let* st := lift (walk_parameters user_arguments (Running 0 []) params) in
          ret (name d +:+ "(" +:+ Str.join ", " (collected st) +:+ ")")
      | None => ret (name d +:+ "(" +:+ Str.join "," user_arguments +:+ ")")
      end
  end.

(** ** [build] *)

(** What [build] hands back: the text itself when the file name is
    ['return'], otherwise the text written to the file. *)
Inductive build_output : Type :=
  | Returned (text : string)
  | Written (outfile_name text : string).

(** [[build_element(element, subscript_dict) for element in elements]] *)
Fixpoint build_elements `{Externals} (elements : list merged_element)
    (sd : subscript_dict) : M (list string) :=
  match elements with
  | [] => ret []
  | element :: rest =>
      let* f := build_element element sd in
      let* fs := build_elements rest sd in
      ret (f :: fs)
  end.

(** The head of the model file, written from the import registry as the
    element builders left it.  The sets are joined in the order [elements]
    lists them; Python fixes no order for them. *)
Definition model_header `{Externals} (im : import_modules_t) (sd : subscript_dict)
    (namespace : list (string * string)) (outfile_name : string) : string :=
  let q3 := Str.dquote +:+ Str.dquote +:+ Str.dquote in
  let import_line (from : string) (methods : gset string) : string :=
    if bool_decide (methods = ∅) then ""
    else "    from pysd.py_backend." +:+ from +:+ " import "
           +:+ Str.join ", " (elements methods) +:+ Str.nl in
  Str.nl +:+ "    " +:+ q3 +:+
  Str.nl +:+ "    Python model " +:+ Str.dquote +:+ basename outfile_name +:+ Str.dquote +:+
  Str.nl +:+ "    Translated using PySD version " +:+ version +:+
  Str.nl +:+ "    " +:+ q3 +:+
  Str.nl +:+ "    from os import path" +:+ Str.nl +:+
  (if numpy im then "    import numpy as np" +:+ Str.nl else "") +:+
  (if xarray im then "    import xarray as xr" +:+ Str.nl else "") +:+
  Str.nl +:+
  import_line "functions" (functions im) +:+
  import_line "external" (external im) +:+
  import_line "utils" (utils im) +:+
  (if subs_flag im then "    from pysd import cache, subs" +:+ Str.nl
   else "    from pysd import cache" +:+ Str.nl) +:+
  Str.nl +:+ "    _subscript_dict = " +:+ repr_coords sd +:+
  Str.nl +:+
  Str.nl +:+ "    _namespace = " +:+ repr_namespace namespace +:+
  Str.nl +:+
  Str.nl +:+ "    __pysd_version__ = " +:+ Str.dquote +:+ version +:+ Str.dquote +:+
  Str.nl +:+
  Str.nl +:+ "    __data = {" +:+
  Str.nl +:+ "        'scope': None," +:+
  Str.nl +:+ "        'time': lambda: 0" +:+
  Str.nl +:+ "    }" +:+
  Str.nl +:+
  Str.nl +:+ "    _root = path.dirname(__file__)" +:+
  Str.nl +:+
  Str.nl +:+ "    def _init_outer_references(data):" +:+
  Str.nl +:+ "        for key in data:" +:+
  Str.nl +:+ "            __data[key] = data[key]" +:+
  Str.nl +:+
  Str.nl +:+ "    def time():" +:+
  Str.nl +:+ "        return __data['time']()" +:+
  Str.nl +:+
  Str.nl +:+ "    ".

(** [build_names.clear()] and the two loops that clear [import_modules]. *)
Definition reset_registries : M Datatypes.unit :=
  modify (λ g, Globals ∅ empty_imports (warnings g)).

(** [build]: the registries are reset once the text is formatted; the
    file is opened and written after that, so an exception raised there
    finds them empty. *)
Definition build `{Externals} (element_list : list element) (sd : subscript_dict)
    (namespace : list (string * string)) (outfile_name : string) : M build_output :=
  let merged := merge_partial_elements element_list in
  let* funcs := build_elements merged sd in
  let* g := get in
  let text := model_header (import_modules g) sd namespace outfile_name in
  let text := Str.dedent (Str.replace Str.tab "    " text) in
  let funcs := Str.replace Str.tab "    " (Str.join Str.nl funcs) in
  let text := text +:+ funcs in
  let* text := lift (black_format text) in
  let* _ := reset_registries in
  if bool_decide (outfile_name = "return") then ret (Returned text)
  else
    let* _ := lift (write_file outfile_name text) in
    ret (Written outfile_name text).

(** ** Sequences of external-source requests *)

(** A call of one of the three external builders. *)
Inductive request : Type :=
  | ExtData (identifier file_name tab time_row_or_col cell : string)
      (subs : list string) (keyword : option string)
  | ExtConstant (identifier file_name tab cell : string) (subs : list string)
  | ExtLookup (identifier file_name tab x_row_or_col cell : string) (subs : list string).

Definition serve `{Externals} (sd : subscript_dict) (r : request)
    : M (string * list element) :=
  match r with
  | ExtData i f t trc c s k => add_ext_data i f t trc c s sd k
  | ExtConstant i f t c s => add_ext_constant i f t c s sd
  | ExtLookup i f t x c s => add_ext_lookup i f t x c s sd
  end.

(** The object name a request computes before it looks at the registry. *)
Definition canonical_name `{Externals} (r : request) : string :=
  match r with
  | ExtData i _ _ _ _ _ _ => make_python_identifier ("_ext_data_" +:+ i)
  | ExtConstant i _ _ _ _ => make_python_identifier ("_ext_constant_" +:+ i)
  | ExtLookup i _ _ _ _ _ => make_python_identifier ("_ext_lookup_" +:+ i)
  end.

(** The identifier a request is made for. *)
Definition source_identifier (r : request) : string :=
  match r with
  | ExtData i _ _ _ _ _ _ => i
  | ExtConstant i _ _ _ _ => i
  | ExtLookup i _ _ _ _ _ => i
  end.

(** The call put behind the object name in the reference returned. *)
Definition call_suffix (r : request) : string :=
  match r with
  | ExtData _ _ _ _ _ _ _ => "(time())"
  | ExtConstant _ _ _ _ _ => "()"
  | ExtLookup _ _ _ _ _ _ => "(x)"
  end.

(** The requests served one after the other, as the translator issues them. *)
Fixpoint serve_all `{Externals} (sd : subscript_dict) (rs : list request)
    : M (list (string * list element)) :=
  match rs with
  | [] => ret []
  | r :: rest =>
      let* out := serve sd r in
      let* outs := serve_all sd rest in
      ret (out :: outs)
  end.

(** The references returned and the elements emitted by a run. *)
Definition references (outs : list (string * list element)) : list string :=
  fst <$> outs.

Definition emitted (outs : list (string * list element)) : list element :=
  concat (snd <$> outs).

(** The two outcomes of a request: a fresh object under the canonical
    name, or an [.add] element under a suffixed name. *)
Definition created `{Externals} (r : request) (out : string * list element) : Prop :=
  ∃ e : element,
    out = (canonical_name r +:+ call_suffix r, [e])
    ∧ py_name e = canonical_name r
    ∧ kind e = "external"
    ∧ Str.startswith "Ext" (py_expr e) = true.

Definition appended `{Externals} (r : request) (out : string * list element) : Prop :=
  ∃ (k : nat) (e : element),
    out = ((canonical_name r +:+ "ADD_" +:+ pretty k) +:+ call_suffix r, [e])
    ∧ py_name e = canonical_name r +:+ "ADD_" +:+ pretty k
    ∧ kind e = "external_add"
    ∧ Str.startswith ".add(" (py_expr e) = true.

(** ** The specification's wording, for comparison *)

Module Spec.

(** Section 4.1: fragments whose expression is the sentinel are dropped. *)
Definition dropped (e : element) : bool := bool_decide (py_expr e = "None").

(** The fragments that contribute to the element called [n], in the
    order they are seen. *)
Definition contributing (n : string) (l : list element) : list element :=
  filter (λ e, dropped e = false ∧ py_name e = n) l.

(** Fill-if-empty: the first non-empty value wins. *)
Fixpoint first_nonempty (l : list string) : string :=
  match l with
  | [] => ""
  | x :: l' => if bool_decide (x = "") then first_nonempty l' else x
  end.

(** Section 4.1: what the merged element [m] holds, given the fragment
    list [l]: the expression, subscript and equation sequences of its
    contributing fragments in the order seen, the first non-empty
    documentation, unit and limits, the call arguments of the last
    contributing fragment, and the kind and display name of the first. *)
Definition merged_from (l : list element) (m : merged_element) : Prop :=
  let fs := contributing (py_name m) l in
  fs ≠ []
  ∧ py_expr m = py_expr <$> fs
  ∧ subs m = subs <$> fs
  ∧ eqn m = eqn_text <$> fs
  ∧ doc m = first_nonempty (doc <$> fs)
  ∧ unit m = first_nonempty (unit <$> fs)
  ∧ lims m = first_nonempty (lims <$> fs)
  ∧ last (arguments <$> fs) = Some (arguments m)
  ∧ head (kind <$> fs) = Some (kind m)
  ∧ head (real_name <$> fs) = Some (real_name m).

(** Section 4.3: the expressions that go into the merge.  An append
    fragment is left out; a value fragment is reindexed when it is the
    last fragment or its successor is a value fragment, and passed
    through unchanged when its successor is an append fragment. *)
Fixpoint combined `{Externals} (is_append : string → bool) (sd : subscript_dict)
    (fragments : list (string * subs_t)) : list string :=
  match fragments with
  | [] => []
  | (e, s) :: rest =>
      if is_append e then combined is_append sd rest
      else
        let successor_is_append :=
          match rest with
          | [] => false
          | (e', _) :: _ => is_append e'
          end in
        (if successor_is_append then e else rearrange_call e s sd)
          :: combined is_append sd rest
  end.

(** Section 4.2: the three evaluation-frequency policies. *)
Inductive policy : Type := RunCached | StepCached | Uncached.

Definition policy_of (k : string) : option policy :=
  if bool_decide (k = "constant") then Some RunCached
  else if bool_decide (k = "component") then Some StepCached
  else if bool_decide (k = "component_ext_data") then Some StepCached
  else if bool_decide (k = "lookup") then Some Uncached
  else if bool_decide (k = "setup") then Some Uncached
  else if bool_decide (k = "stateful") then Some Uncached
  else if bool_decide (k = "external") then Some Uncached
  else if bool_decide (k = "external_add") then Some Uncached
  else None.

(** The decorator that stands for a policy in the generated text. *)
Definition decorator (p : policy) : string :=
  match p with
  | RunCached => "@cache.run"
  | StepCached => "@cache.step"
  | Uncached => ""
  end.



End Spec.

(** ** A concrete choice of the outside functions, to run the builder on *)

Module Reference.

(** Modelled from the spec: [utils.find_subscript_name] is not among the
    sources.  Section 3 has the subscript dictionary map a
    "dimension-family name to its ordered set of member labels",
    "consulted to resolve a subscript-fragment list into dimension names":
    a family name resolves to itself, a member label to the first family
    that lists it. *)
Definition find_subscript_name_model (sd : subscript_dict) (sub : string) : option string :=
  if bool_decide (sub ∈ sd.*1) then Some sub
  else fst <$> head (filter (λ kv, sub ∈ kv.2) sd).

(** Modelled from the spec: [utils.make_coord_dict] is not among the
    sources.  Section 3 has the subscript dictionary resolve a fragment's
    subscripts into "coordinate mappings": a member label gives its
    family that one label, a family name gives the family all its
    members. *)
Fixpoint make_coord_dict_list (subs : list string) (sd : subscript_dict) : coord_dict :=
  match subs with
  | [] => []
  | sub :: rest =>
      let coords := make_coord_dict_list rest sd in
      if bool_decide (sub ∈ mjoin sd.*2) then
        match find_subscript_name_model sd sub with
        | Some family => (family, [sub]) :: coords
        | None => coords
        end
      else
        match head (filter (λ kv, kv.1 = sub) sd) with
        | Some (_, members) => (sub, members) :: coords
        | None => coords
        end
  end.

Definition make_coord_dict_model (s : subs_t) (sd : subscript_dict) : coord_dict :=
  make_coord_dict_list (subs_items s) sd.

(** [os.path.basename] for [/]-separated paths. *)
Fixpoint basename_model (path : string) : string :=
  match path with
  | EmptyString => EmptyString
  | String c rest =>
      if Str.contains "/" path then basename_model rest else path
  end.

(** Modelled from the spec: [utils.make_python_identifier] is not among
    the sources, and section 1 keeps "namespace/identifier sanitization"
    outside the core; the builders are handed a "target-safe identifier"
    (section 4.4), which this choice leaves as it is.  Strings are quoted
    the way [repr] quotes a string free of quotes and backslashes, the
    formatter returns its input, and the version is a placeholder. *)
(** Writing a file: a file without a name cannot be opened. *)
Definition write_file_model (path text : string) : result Datatypes.unit :=
  if bool_decide (path = "") then Err (OSError "[Errno 2] No such file or directory: ''")
  else Ok tt.

Definition externals : Externals :=
  {| make_python_identifier := λ s, s;
     make_coord_dict := make_coord_dict_model;
     find_subscript_name := find_subscript_name_model;
     repr_str := λ s, "'" +:+ s +:+ "'";
     black_format := λ text, Ok text;
     basename := basename_model;
     write_file := write_file_model;
     version := "0.0.0" |}.

End Reference.

(** ** Bookkeeping for the merger

    The entry of [n] updated in place, and what the dictionary [outs] holds
    once the fragments [l] have been seen. *)

Definition updated (n : string) (e : element) (km : string * merged_element)
    : string * merged_element :=
  if bool_decide (km.1 = n) then (km.1, add_fragment km.2 e) else km.

Definition merged_so_far (l : list element) (outs : list (string * merged_element))
    : Prop :=
  NoDup outs.*1
  ∧ Forall (λ km, py_name km.2 = km.1 ∧ Spec.merged_from l km.2) outs
  ∧ ∀ n, n ∈ outs.*1 ↔ Spec.contributing n l ≠ [].

(** ** Inputs used in the examples *)

Module Examples.

(** One subscript family with two members. *)
Definition sd : subscript_dict := [("dim", ["A"; "B"])].

(** Two data requests for the variable [x], one per member. *)
Definition data_A : request :=
  ExtData "x" "'data.xlsx'" "'Sheet1'" "'1'" "'B2'" ["A"] (Some ":interpolate:").

Definition data_B : request :=
  ExtData "x" "'data.xlsx'" "'Sheet1'" "'1'" "'B3'" ["B"] None.

(** A constant, merged from its one fragment. *)
Definition rate : merged_element :=
  first_entry (new_element "rate" "Rate" "constant" "0.5" (SubsList []) "" "1/Year" "").

(** An element whose kind is not one of the eight. *)
Definition stray : element :=
  new_element "y" "Y" "auxiliary" "1" (SubsList []) "" "" "".

(** A function with the ambient time as its only parameter, and one that
    takes the time and an expression. *)
Definition clock : function_dict :=
  FunctionDict "f" None None (Some [ParameterDef None (Some "time")]).


(** A constant and a lookup requested for the variable [x] as well. *)
Definition constant_x : request :=
  ExtConstant "x" "'data.xlsx'" "'Sheet1'" "'C2'" ["A"].

Definition lookup_x : request :=
  ExtLookup "x" "'data.xlsx'" "'Sheet1'" "'1'" "'D2'" ["A"].



End Examples.


(** ** The remaining builders *)

Definition add_n_smooth (identifier smooth_input smooth_time initial_value order : string)
    (subs : list string) (sd : subscript_dict) : M (string * list element) :=
  let* _ := import_function "Smooth" in
  let* py_expr :=
    lift (percent_format "Smooth(lambda: %s, lambda: %s, lambda: %s, lambda: %s)"
            [smooth_input; smooth_time; initial_value; order]) in
  let stateful :=
    new_element ("_smooth_" +:+ identifier) ("Smooth of " +:+ smooth_input)
      "stateful" py_expr (SubsStr "")
      ("Smooth time: " +:+ smooth_time +:+ " " +:+ Str.nl +:+ " Smooth initial value "
         +:+ initial_value +:+ " " +:+ Str.nl +:+ " Smooth order " +:+ order)
      "None" "" in
  ret (py_name stateful +:+ "()", [stateful]).

Definition add_n_trend (identifier trend_input average_time initial_trend : string)
    (subs : list string) (sd : subscript_dict) : M (string * list element) :=
  let* _ := import_function "Trend" in
  let* py_expr :=
    lift (percent_format "Trend(lambda: %s, lambda: %s, lambda: %s)"
            [trend_input; average_time; initial_trend]) in
  let stateful :=
    new_element ("_trend_" +:+ identifier) ("trend of " +:+ trend_input)
      "stateful" py_expr (SubsStr "")
      ("Trend average time: " +:+ average_time +:+ " " +:+ Str.nl
         +:+ " Trend initial value " +:+ initial_trend)
      "None" "" in
  ret (py_name stateful +:+ "()", [stateful]).

Definition add_initial `{Externals} (initial_input : string) : M (string * list element) :=
  let* _ := import_function "Initial" in
  let* py_expr := lift (percent_format "Initial(lambda: %s)" [initial_input]) in
  let stateful :=
    new_element (make_python_identifier ("_initial_" +:+ initial_input))
      ("Smooth of " +:+ initial_input) "stateful" py_expr (SubsStr "")
      "Returns the value taken on during the initialization phase" "None" "" in
  ret (py_name stateful +:+ "()", [stateful]).

(** [["'%s': lambda: %s" % (key, val) for key, val in zip(arg_names, arg_vals)]] *)
Definition macro_bindings (arg_names arg_vals : list string) : list string :=
  zip_with (λ key val, "'" +:+ key +:+ "': lambda: " +:+ val) arg_names arg_vals.

Definition add_macro `{Externals} (macro_name filename : string)
    (arg_names arg_vals : list string) : M (string * list element) :=
  let* _ := import_function "Macro" in
  let func_args := "{ " +:+ Str.join ", " (macro_bindings arg_names arg_vals) +:+ " }" in
  let* py_expr :=
    lift (percent_format "Macro('%s', %s, '%s',time_initialization=lambda: __data['time'])"
            [filename; func_args; macro_name]) in
  let stateful :=
    new_element
      ("_macro_" +:+ macro_name +:+ "_"
         +:+ Str.join "_" (make_python_identifier <$> arg_vals))
      ("Macro Instantiation of " +:+ macro_name) "stateful" py_expr (SubsStr "")
      "Instantiates the Macro" "None" "" in
  ret (py_name stateful +:+ "()", [stateful]).

(** A call of one of the builders of stateful objects. *)
Inductive construct : Type :=
  | Stock (identifier expression initial_condition : string) (subs : list string)
  | Delay (identifier delay_input delay_time initial_value order : string)
      (subs : list string)
  | Smooth (identifier smooth_input smooth_time initial_value order : string)
      (subs : list string)
  | Trend (identifier trend_input average_time initial_trend : string)
      (subs : list string)
  | Initial (initial_input : string)
  | Macro (macro_name filename : string) (arg_names arg_vals : list string).

Definition construct_run `{Externals} (sd : subscript_dict) (c : construct)
    : M (string * list element) :=
  match c with
  | Stock i e ic s => add_stock i e ic s sd
  | Delay i di dt iv o s => add_n_delay i di dt iv o s sd
  | Smooth i si st iv o s => add_n_smooth i si st iv o s sd
  | Trend i ti at_ it s => add_n_trend i ti at_ it s sd
  | Initial ii => add_initial ii
  | Macro m f ns vs => add_macro m f ns vs
  end.

(** The class the builder asks [pysd.py_backend.functions] for. *)
Definition constructor_name (c : construct) : string :=
  match c with
  | Stock _ _ _ _ => "Integ"
  | Delay _ _ _ _ _ _ => "Delay"
  | Smooth _ _ _ _ _ _ => "Smooth"
  | Trend _ _ _ _ _ => "Trend"
  | Initial _ => "Initial"
  | Macro _ _ _ _ => "Macro"
  end.

(** The number of implicit elements a call makes beside the stateful one. *)
Definition helper_count (c : construct) : nat :=
  match c with
  | Stock _ _ _ (_ :: _) => 2
  | Delay _ _ _ _ _ (_ :: _) => 3
  | _ => 0
  end.

(** ** Further notions used in the properties *)

(** The names of a list in the order in which each is first seen. *)
Fixpoint first_seen (seen names : list string) : list string :=
  match names with
  | [] => []
  | n :: rest =>
      if bool_decide (n ∈ seen) then first_seen seen rest
      else n :: first_seen (n :: seen) rest
  end.

(** What [build_element] may do to the import registry: add [rearrange]
    and [xrmerge] to the utilities and switch the [subs] flag on. *)
Definition assembler_frame (g g' : globals) : Prop :=
  build_names g' = build_names g
  ∧ warnings g' = warnings g
  ∧ numpy (import_modules g') = numpy (import_modules g)
  ∧ xarray (import_modules g') = xarray (import_modules g)
  ∧ functions (import_modules g') = functions (import_modules g)
  ∧ external (import_modules g') = external (import_modules g)
  ∧ utils (import_modules g) ⊆ utils (import_modules g')
  ∧ utils (import_modules g') ⊆ {["rearrange"; "xrmerge"]} ∪ utils (import_modules g)
  ∧ (subs_flag (import_modules g) = true → subs_flag (import_modules g') = true).


(** A one-line text: no line feed in it. *)
Definition one_line (s : string) : Prop := Str.contains Str.nl s = false.

(** A text that starts with something else than a blank. *)
Definition starts_unindented (s : string) : Prop :=
  match s with
  | EmptyString => False
  | String c _ => Str.is_blank c = false ∧ c ≠ "010"%char
  end.

(** ** Inputs for the properties *)

Module Cases.

(** A stock without subscripts, as the merger hands it to the assembler. *)
Definition level : merged_element :=
  first_entry (new_element "_integ_level" "Level" "stateful"
                 "Integ(lambda: inflow(), lambda: 10)" (SubsStr "") "" "" "").

(** The first of two external fragments to be added to one object. *)
Definition added : merged_element :=
  first_entry (new_element "_ext_data_xADD_1" "x" "external_add"
                 ".add('data.xlsx', 'Sheet1', '1', 'B3')" (SubsList ["B"]) "" "" "").

(** A subscripted auxiliary variable. *)
Definition flow : merged_element :=
  first_entry (new_element "flow" "Flow" "component" "level()/5" (SubsList ["dim"])
                 "" "" "").

(** A constant as the translator passes it, and a fragment it drops. *)
Definition rate : element :=
  new_element "rate" "Rate" "constant" "0.5" (SubsList []) "" "1/Year" "".

Definition blank : element :=
  new_element "rate" "Rate" "constant" "None" (SubsList []) "" "1/Year" "".


Definition trailing : function_dict :=
  FunctionDict "f" None None
    (Some [ParameterDef None (Some "expression");
           ParameterDef (Some true) (Some "expression");
           ParameterDef None (Some "time")]).

Definition untranslated : function_dict :=
  FunctionDict "not_implemented_function" (Some "GAME") None None.

Definition absolute : function_dict :=
  FunctionDict "np.abs" None (Some "numpy") (Some [ParameterDef None (Some "expression")]).

(** The registries after a request for the data of [x]. *)
Definition busy : globals :=
  Globals {["_ext_data_x"]} (ImportModules false false false ∅ {["ExtData"]} ∅) [].

End Cases.
(** * Properties *)

(** ** Strings *)

Module StrFacts.
Import Str.

Lemma app_cons (x : ascii) (a b : string) : String x a +:+ b = String x (a +:+ b).
Proof. reflexivity. Qed.

Lemma app_nil_l (a : string) : "" +:+ a = a.
Proof. reflexivity. Qed.

Lemma app_assoc (a b c : string) : (a +:+ b) +:+ c = a +:+ (b +:+ c).
Proof.
  induction a as [|x a IH]; [done|]. by rewrite !app_cons, IH.
Qed.

Lemma app_nil_r (a : string) : a +:+ "" = a.
Proof. induction a as [|x a IH]; [done|]. by rewrite app_cons, IH. Qed.

Lemma startswith_app (p s : string) : startswith p (p +:+ s) = true.
Proof.
  induction p as [|x p IH]; [done|].
  rewrite app_cons. cbn. by rewrite Ascii.eqb_refl.
Qed.

Lemma contains_here (p s : string) : startswith p s = true → contains p s = true.
Proof. intros Hp. destruct s; cbn in *; by rewrite Hp. Qed.

Lemma contains_app_r (p a s : string) :
  contains p s = true → contains p (a +:+ s) = true.
Proof.
  intros Hs. induction a as [|x a IH]; [done|].
  rewrite app_cons. cbn [contains]. rewrite IH. apply orb_true_r.
Qed.

Lemma contains_cons (p : string) (x : ascii) (s : string) :
  contains p (String x s) = false →
  startswith p (String x s) = false ∧ contains p s = false.
Proof. cbn [contains]. intros Hc. by apply orb_false_elim in Hc. Qed.

(** An occurrence of [ADD] cannot start inside an [ADD]-free name and
    end inside a text put behind it that does not start with [D]. *)
Lemma startswith_ADD_before (c : string) (a : ascii) (t : string) :
  a ≠ "D"%char → c ≠ "" → startswith "ADD" c = false →
  startswith "ADD" (c +:+ String a t) = false.
Proof.
  intros Ha Hne Hc.
  destruct c as [|x [|y [|z c]]]; [done|..];
    rewrite ?app_cons, ?app_nil_l; cbn [startswith] in *;
    repeat (match goal with
            | |- context [Ascii.eqb ?a ?b] => destruct (Ascii.eqb_spec a b); subst
            end; try done).
Qed.


Lemma split_head_ADD (c rest : string) :
  contains "ADD" c = false → split_head "ADD" (c +:+ "ADD_" +:+ rest) = c.
Proof.
  induction c as [|x c IH]; intros Hc; [done|].
  apply contains_cons in Hc as [Hhere Hlater].
  pose proof (startswith_ADD_before (String x c) "A" ("DD_" +:+ rest)) as Hs.
  change (String "A" ("DD_" +:+ rest)) with ("ADD_" +:+ rest) in Hs.
  rewrite (app_cons x c) in Hs. rewrite (app_cons x c). cbn [split_head].
  rewrite Hs by done. by rewrite IH.
Qed.

Lemma contains_ADD_suffixed (c rest : string) :
  contains "ADD" (c +:+ "ADD_" +:+ rest) = true.
Proof. apply contains_app_r. done. Qed.

Lemma app_ne_self (c x : string) : x ≠ "" → c +:+ x ≠ c.
Proof.
  intros Hx Heq. apply Hx.
  apply (String.app_inj c). by rewrite app_nil_r.
Qed.

(** A template piece free of percent signs is copied as it stands. *)
Lemma percent_format_plain (c t : string) (args : list string) :
  contains "%" c = false →
  percent_format (c +:+ t) args
    = result_bind (percent_format t args) (λ r, Ok (c +:+ r)).
Proof.
  induction c as [|x c IH]; intros Hc.
  - rewrite app_nil_l. by destruct (percent_format t args).
  - apply contains_cons in Hc as [Hhere Hlater].
    cbn [startswith] in Hhere. rewrite app_cons. cbn [percent_format].
    rewrite Ascii.eqb_sym.
    destruct (Ascii.eqb "%" x); [done|].
    rewrite IH by done. by destruct (percent_format t args).
Qed.

End StrFacts.

(** ** Running the monad *)

Lemma bind_ok {A B} (m : M A) (k : A → M B) g a g' :
  m g = (Ok a, g') → bind m k g = k a g'.
Proof. intros Hm. unfold bind. by rewrite Hm. Qed.

Lemma bind_err {A B} (m : M A) (k : A → M B) g e g' :
  m g = (Err e, g') → bind m k g = (Err e, g').
Proof. intros Hm. unfold bind. by rewrite Hm. Qed.

Lemma bind_lift_ok {A B} (r : result A) (k : A → M B) g a :
  r = Ok a → bind (lift r) k g = k a g.
Proof. by intros ->. Qed.

Lemma bind_lift_err {A B} (r : result A) (k : A → M B) g e :
  r = Err e → bind (lift r) k g = (Err e, g).
Proof. by intros ->. Qed.

(** ** Stock and delay construction *)

(** C6: [add_stock] returns the reference [_integ_<id>()]; without
    subscripts it makes the stateful wrapper alone, built on the derivative
    and initial-value expressions; with subscripts it makes a [setup]
    initializer, a [component] derivative provider and the wrapper, whose
    expression calls the two helpers by their names and is a function of
    the identifier alone. *)
Theorem add_stock_elements (identifier expression initial_condition : string)
    (subscripts : list string) (sd : subscript_dict) (g : globals) :
  ∃ (new_structure : list element) (g' : globals),
    add_stock identifier expression initial_condition subscripts sd g
      = (Ok ("_integ_" +:+ identifier +:+ "()", new_structure), g')
    ∧ build_names g' = build_names g
    ∧ match subscripts with
      | [] =>
          ∃ stateful, new_structure = [stateful]
            ∧ kind stateful = "stateful"
            ∧ py_name stateful = "_integ_" +:+ identifier
            ∧ py_expr stateful
              = "Integ(lambda: " +:+ expression +:+ ", lambda: "
                  +:+ initial_condition +:+ ")"
      | _ :: _ =>
          ∃ init ddt stateful, new_structure = [init; ddt; stateful]
            ∧ kind init = "setup" ∧ py_expr init = initial_condition
            ∧ py_name init = "_init_" +:+ identifier
            ∧ subs init = SubsList subscripts
            ∧ kind ddt = "component" ∧ py_expr ddt = expression
            ∧ py_name ddt = "_d" +:+ identifier +:+ "_dt"
            ∧ subs ddt = SubsList subscripts
            ∧ kind stateful = "stateful"
            ∧ py_name stateful = "_integ_" +:+ identifier
            ∧ py_expr stateful
              = "Integ(lambda: " +:+ py_name ddt +:+ "(), lambda: "
                  +:+ py_name init +:+ "())"
            ∧ py_expr stateful
              = "Integ(lambda: _d" +:+ identifier +:+ "_dt(), lambda: _init_"
                  +:+ identifier +:+ "())"
      end.
Proof.
  destruct subscripts as [|s subs'].
  - eexists _, _. split; [reflexivity|]. split; [done|].
    eexists. repeat split; reflexivity.
  - eexists _, _. split; [reflexivity|]. split; [done|].
    eexists _, _, _. repeat split; try reflexivity.
    cbn. by rewrite !StrFacts.app_assoc.
Qed.

(** Whatever string is passed as the order, literal or not, the delay
    builder returns its reference and elements and copies the order into
    the [Delay] expression; it does not raise. *)
Lemma add_n_delay_accepts_any_order
    (identifier delay_input delay_time initial_value order : string)
    (subscripts : list string) (sd : subscript_dict) (g : globals) :
  ∃ (new_structure : list element) (stateful : element) (g' : globals),
    add_n_delay identifier delay_input delay_time initial_value order subscripts sd g
      = (Ok ("_delay_" +:+ identifier +:+ "()", new_structure), g')
    ∧ last new_structure = Some stateful
    ∧ kind stateful = "stateful"
    ∧ py_expr stateful
      = match subscripts with
        | [] => "Delay(lambda: " +:+ delay_input +:+ ", lambda: " +:+ delay_time
                  +:+ ",lambda: " +:+ initial_value +:+ ", lambda: " +:+ order +:+ ")"
        | _ :: _ => "Delay(lambda: _delinput_" +:+ identifier +:+ "(),lambda: _deltime_"
                  +:+ identifier +:+ "(), lambda: _init_" +:+ identifier
                  +:+ "(),lambda: " +:+ order +:+ ")"
        end.
Proof.
  destruct subscripts as [|s subs'].
  - eexists _, _, _. split; [reflexivity|]. repeat split; reflexivity.
  - eexists _, _, _. split; [reflexivity|]. repeat split; reflexivity.
Qed.

(** C2, on the code: the order [order_var()] is no integer literal, and
    the delay builder does not raise on it: it returns the reference and
    the stateful element, with the order copied into the [Delay]
    expression; with the literal [3] it returns as well. *)
Theorem add_n_delay_order_reference_accepted :
  is_int_literal "order_var()" = false
  ∧ is_int_literal "3" = true
  ∧ (add_n_delay "x" "inp()" "dt()" "0" "order_var()" [] [] initial_globals).1
    = Ok ("_delay_x()",
          [ new_element "_delay_x" "Delay of inp()" "stateful"
              "Delay(lambda: inp(), lambda: dt(),lambda: 0, lambda: order_var())"
              (SubsStr "")
              ("Delay time: dt() " +:+ Str.nl +:+ " Delay initial value 0 "
                 +:+ Str.nl +:+ " Delay order order_var()")
              "None" "" ])
  ∧ ∃ out, (add_n_delay "x" "inp()" "dt()" "0" "3" [] [] initial_globals).1 = Ok out.
Proof. repeat split; try reflexivity. eexists. reflexivity. Qed.

(** ** Formatting with [%] *)

Lemma percent_format_app (t1 t2 : string) (args1 args2 : list string) (r1 : string) :
  percent_format t1 args1 = Ok r1 →
  percent_format (t1 +:+ t2) (args1 ++ args2)
    = result_bind (percent_format t2 args2) (λ r2, Ok (r1 +:+ r2)).
Proof.
  remember (String.length t1) as n eqn:Hn.
  revert t1 args1 r1 Hn.
  induction (lt_wf n) as [n _ IH]. intros t1 args1 r1 -> Hok.
  destruct t1 as [|c t].
  - destruct args1; [|done]. cbn in Hok. injection Hok as <-.
    rewrite StrFacts.app_nil_l. cbn [app].
    destruct (percent_format t2 args2); reflexivity.
  - rewrite StrFacts.app_cons. cbn [percent_format] in *.
    destruct (Ascii.eqb c "%").
    + destruct t as [|d t']; [done|]. rewrite StrFacts.app_cons.
      destruct (Ascii.eqb d "s").
      * destruct args1 as [|a args1]; [done|].
        destruct (percent_format t' args1) as [r|] eqn:Hr; [|done].
        cbn in Hok. injection Hok as <-. cbn [app].
        rewrite (IH (String.length t')) with (r1 := r); [|cbn; lia|done|done].
        destruct (percent_format t2 args2); [|reflexivity].
        cbn. by rewrite StrFacts.app_assoc.
      * destruct (Ascii.eqb d "%"); [|done].
        destruct (percent_format t' args1) as [r|] eqn:Hr; [|done].
        cbn in Hok. injection Hok as <-.
        rewrite (IH (String.length t')) with (r1 := r); [|cbn; lia|done|done].
        destruct (percent_format t2 args2); reflexivity.
    + destruct (percent_format t args1) as [r|] eqn:Hr; [|done].
      cbn in Hok. injection Hok as <-.
      rewrite (IH (String.length t)) with (r1 := r); [|cbn; lia|done|done].
      destruct (percent_format t2 args2); reflexivity.
Qed.

(** A template that ends in a quoted name free of percent signs. *)
Lemma percent_format_named (t name : string) (args : list string) (r : string) :
  percent_format t args = Ok r →
  Str.contains "%" name = false →
  percent_format (t +:+ name +:+ "')") args = Ok (r +:+ name +:+ "')").
Proof.
  intros Ht Hname.
  rewrite <- (app_nil_r args) at 1.
  rewrite (percent_format_app _ _ _ _ _ Ht).
  by rewrite (StrFacts.percent_format_plain name "')" [] Hname).
Qed.

(** ** The name registry *)

Create HintDb builder.
#[local] Hint Unfold bind ret lift raise modify get registered register_name warn
  import_function import_external import_utils import_subs set_imports : builder.

Ltac run_monad :=
  repeat (progress (autounfold with builder;
                    cbn [build_names import_modules warnings fst snd])).


Lemma free_number_fresh (stem : string) (names : gset string) (fuel number : nat)
    (seen : gset string) :
  seen ⊆ names →
  (∀ m : nat, (number ≤ m)%nat → stem +:+ pretty m ∉ seen) →
  (size names ≤ fuel + size seen)%nat →
  stem +:+ pretty (free_number stem names fuel number) ∉ names.
Proof.
  revert number seen.
  induction fuel as [|fuel IH]; intros number seen Hsub Hlater Hsize; cbn.
  - assert (seen = names) as <- by (apply set_subseteq_size_eq; [done | lia]).
    by apply Hlater.
  - destruct (bool_decide_reflect (stem +:+ pretty number ∈ names)); [|done].
    apply (IH (S number) ({[stem +:+ pretty number]} ∪ seen)).
    + set_solver.
    + intros m Hm Hm'. apply elem_of_union in Hm' as [Heq | Hseen].
      * apply elem_of_singleton in Heq. apply (inj (String.app stem)) in Heq. apply (inj pretty) in Heq. lia.
      * by apply (Hlater m); [lia|].
    + rewrite size_union by (specialize (Hlater number); set_solver).
      rewrite size_singleton. lia.
Qed.

Lemma make_add_identifier_fresh (identifier : string) (g : globals) :
  ∃ (k : nat) (g' : globals),
    make_add_identifier identifier g = (Ok (identifier +:+ "ADD_" +:+ pretty k), g')
    ∧ ((identifier +:+ "ADD_" +:+ pretty k) ∉ build_names g)
    ∧ build_names g' = {[identifier +:+ "ADD_" +:+ pretty k]} ∪ build_names g
    ∧ import_modules g' = import_modules g.
Proof.
  exists (free_number (identifier +:+ "ADD_") (build_names g) (size (build_names g)) 1).
  eexists. unfold make_add_identifier, bind, get, register_name, modify, ret.
  rewrite !StrFacts.app_assoc. split; [reflexivity|]. split; [|done].
  rewrite <- StrFacts.app_assoc.
  apply (free_number_fresh _ _ _ _ ∅); [set_solver | set_solver |].
  rewrite size_empty. lia.
Qed.

Lemma percent_format_named_ok (t name : string) (args : list string) :
  (∃ r, percent_format t args = Ok ("Ext" +:+ r)) →
  Str.contains "%" name = false →
  ∃ r, percent_format (t +:+ name +:+ "')") args = Ok ("Ext" +:+ r).
Proof.
  intros [r Hr] Hname. exists (r +:+ name +:+ "')").
  rewrite <- (StrFacts.app_assoc "Ext"). by apply percent_format_named.
Qed.

Ltac format_named :=
  match goal with
  | |- context [percent_format (?t +:+ ?n +:+ "')") ?a] =>
      let pe := fresh "pe" in
      let Hpe := fresh "Hpe" in
      destruct (percent_format_named_ok t n a) as [pe Hpe];
      [eexists; reflexivity | done | rewrite Hpe]
  end.

Lemma serve_fresh `{Externals} (sd : subscript_dict) (r : request) (g : globals) :
  canonical_name r ∉ build_names g →
  Str.contains "%" (canonical_name r) = false →
  ∃ (g' : globals) (out : string * list element),
    serve sd r g = (Ok out, g')
    ∧ created r out
    ∧ build_names g' = {[canonical_name r]} ∪ build_names g.
Proof.
  intros Hfresh Hplain. unfold created.
  destruct r; cbn [serve canonical_name call_suffix] in *.
  - unfold add_ext_data. run_monad. rewrite bool_decide_eq_false_2 by done.
    format_named.
    eexists _, _. split; [reflexivity|]. split; [|done].
    eexists. by repeat split.
  - unfold add_ext_constant. run_monad. rewrite bool_decide_eq_false_2 by done.
    format_named.
    eexists _, _. split; [reflexivity|]. split; [|done].
    eexists. by repeat split.
  - unfold add_ext_lookup. run_monad. rewrite bool_decide_eq_false_2 by done.
    rewrite <- (StrFacts.app_assoc Str.nl).
    rewrite <- (StrFacts.app_assoc "ExtLookup(%s, %s, %s, %s, %s,").
    format_named.
    eexists _, _. split; [reflexivity|]. split; [|done].
    eexists. by repeat split.
Qed.

Ltac add_identifier :=
  match goal with
  | |- context [make_add_identifier ?c ?g] =>
      let k := fresh "k" in
      let g' := fresh "g'" in
      let Hadd := fresh "Hadd" in
      let Hnew := fresh "Hnew" in
      let Hnames := fresh "Hnames" in
      let Himports := fresh "Himports" in
      destruct (make_add_identifier_fresh c g)
        as (k & g' & Hadd & Hnew & Hnames & Himports);
      rewrite Hadd
  end.

Lemma serve_present `{Externals} (sd : subscript_dict) (r : request) (g : globals) :
  canonical_name r ∈ build_names g →
  ∃ (g' : globals) (out : string * list element) (e : element),
    serve sd r g = (Ok out, g')
    ∧ appended r out
    ∧ out.2 = [e]
    ∧ (py_name e ∉ build_names g)
    ∧ build_names g' = {[py_name e]} ∪ build_names g.
Proof.
  intros Hpresent. unfold appended.
  destruct r; cbn [serve canonical_name call_suffix] in *.
  - unfold add_ext_data. run_monad. rewrite bool_decide_eq_true_2 by done.
    add_identifier. cbn in Hnew, Hnames.
    eexists _, _, _. split; [reflexivity|]. split; [|by repeat split].
    eexists _, _. by repeat split.
  - unfold add_ext_constant. run_monad. rewrite bool_decide_eq_true_2 by done.
    add_identifier. cbn in Hnew, Hnames.
    eexists _, _, _. split; [reflexivity|]. split.
    { eexists _, _. by repeat split. }
    repeat split; try done. cbn. rewrite Hnames. set_solver.
  - unfold add_ext_lookup. run_monad. rewrite bool_decide_eq_true_2 by done.
    add_identifier. cbn in Hnew, Hnames.
    eexists _, _, _. split; [reflexivity|]. split.
    { eexists _, _. by repeat split. }
    repeat split; try done. cbn. rewrite Hnames. set_solver.
Qed.

(** ** Runs of requests for one object *)

Lemma serve_all_cons `{Externals} (sd : subscript_dict) (r : request)
    (rs : list request) (g g1 : globals) (out : string * list element) :
  serve sd r g = (Ok out, g1) →
  serve_all sd (r :: rs) g
    = match serve_all sd rs g1 with
      | (Ok outs, g') => (Ok (out :: outs), g')
      | (Err e, g') => (Err e, g')
      end.
Proof.
  intros Hr. cbn [serve_all]. unfold bind at 1. rewrite Hr.
  unfold bind, ret. by destruct (serve_all sd rs g1) as [[outs|e] g'].
Qed.

(** Once the object is registered every request is an append under a name
    of its own, none of which was registered before. *)
Lemma serve_all_present `{Externals} (sd : subscript_dict) (c : string)
    (rs : list request) (g : globals) :
  Forall (λ r, canonical_name r = c) rs →
  c ∈ build_names g →
  ∃ (outs : list (string * list element)) (g' : globals),
    serve_all sd rs g = (Ok outs, g')
    ∧ Forall2 appended rs outs
    ∧ NoDup (py_name <$> emitted outs)
    ∧ (∀ n, n ∈ py_name <$> emitted outs → n ∉ build_names g).
Proof.
  intros Hsame. revert g.
  induction Hsame as [|r rs Hr Hsame IH]; intros g Hc.
  - exists [], g. repeat split; [constructor | constructor | ].
    intros n Hn. by apply elem_of_nil in Hn.
  - destruct (serve_present sd r g) as (g1 & out & e & Hserve & Happ & He & Hnew & Hnames);
      [by rewrite Hr|].
    destruct (IH g1) as (outs & g' & Hrun & Hall & Hdup & Hold).
    { rewrite Hnames. set_solver. }
    exists (out :: outs), g'.
    rewrite (serve_all_cons _ _ _ _ _ _ Hserve), Hrun.
    split; [done|]. split; [by constructor|].
    unfold emitted in *. cbn [fmap list_fmap concat]. rewrite He. cbn.
    split.
    + constructor; [|done].
      intros Hin. apply Hold in Hin. apply Hin. rewrite Hnames. set_solver.
    + intros n Hn. apply elem_of_cons in Hn as [->|Hn]; [done|].
      apply Hold in Hn. rewrite Hnames in Hn. set_solver.
Qed.

(** The first request creates the object, the others append to it. *)
Lemma serve_all_fresh `{Externals} (sd : subscript_dict) (c : string)
    (r : request) (rs : list request) (g : globals) :
  Forall (λ r, canonical_name r = c) (r :: rs) →
  c ∉ build_names g →
  Str.contains "%" c = false →
  ∃ (out : string * list element) (outs : list (string * list element)) (g' : globals),
    serve_all sd (r :: rs) g = (Ok (out :: outs), g')
    ∧ created r out
    ∧ Forall2 appended rs outs
    ∧ NoDup (py_name <$> emitted (out :: outs)).
Proof.
  intros Hsame Hfresh Hplain.
  apply Forall_cons in Hsame as [Hr Hsame].
  destruct (serve_fresh sd r g) as (g1 & out & Hserve & Hnew & Hnames);
    [by rewrite Hr.. |].
  destruct (serve_all_present sd c rs g1 Hsame) as (outs & g' & Hrun & Hall & Hdup & Hold).
  { rewrite Hnames, Hr. set_solver. }
  exists out, outs, g'.
  rewrite (serve_all_cons _ _ _ _ _ _ Hserve), Hrun.
  repeat split; try done.
  destruct Hnew as (e & -> & Hname & _).
  unfold emitted in *. cbn. constructor; [|done].
  intros Hin. apply Hold in Hin. apply Hin.
  rewrite Hnames, Hname. set_solver.
Qed.

(** ** The element merger *)

Section Merger.

Implicit Types (l : list element) (e : element) (m o : merged_element)
  (outs : list (string * merged_element)) (n : string).

Lemma fmap_id_on {A} (f : A → A) (xs : list A) :
  (∀ x, x ∈ xs → f x = x) → f <$> xs = xs.
Proof.
  induction xs as [|x xs IH]; intros Hf; [done|]. cbn.
  rewrite Hf by left. rewrite IH; [done|]. intros y Hy. apply Hf. by right.
Qed.

Lemma update_entry_absent outs n e : n ∉ outs.*1 → update_entry outs n e = None.
Proof.
  induction outs as [|[k o] outs IH]; intros Hn; [done|].
  cbn in *. apply not_elem_of_cons in Hn as [Hk Hn].
  rewrite bool_decide_eq_false_2 by done. by rewrite IH.
Qed.

Lemma update_entry_present outs n e :
  NoDup outs.*1 → n ∈ outs.*1 →
  update_entry outs n e = Some (updated n e <$> outs).
Proof.
  induction outs as [|[k o] outs IH]; intros Hdup Hn.
  { by apply elem_of_nil in Hn. }
  cbn in *. apply NoDup_cons in Hdup as [Hk Hdup]. unfold updated at 1. cbn.
  destruct (bool_decide_reflect (k = n)) as [->|Hne].
  - do 2 f_equal. symmetry. apply fmap_id_on.
    intros [k' o'] Hin. unfold updated. cbn.
    rewrite bool_decide_eq_false_2; [done|].
    intros ->. apply Hk. apply list_elem_of_fmap. by exists (n, o').
  - apply elem_of_cons in Hn as [?|Hn]; [done|]. by rewrite IH.
Qed.

Lemma updated_keys outs n e : (updated n e <$> outs).*1 = outs.*1.
Proof.
  rewrite <- list_fmap_compose. apply list_fmap_ext.
  intros i [k o] _. unfold updated. cbn. by case_bool_decide.
Qed.

Lemma contributing_snoc n l e :
  Spec.contributing n (l ++ [e])
    = Spec.contributing n l
        ++ (if bool_decide (Spec.dropped e = false ∧ py_name e = n) then [e] else []).
Proof.
  unfold Spec.contributing. rewrite filter_app. f_equal.
  rewrite filter_cons, filter_nil. by case_bool_decide; case_decide.
Qed.

Lemma first_nonempty_snoc (xs : list string) (y : string) :
  Spec.first_nonempty (xs ++ [y]) = str_or (Spec.first_nonempty xs) y.
Proof.
  induction xs as [|x xs IH]; cbn.
  - case_bool_decide; by subst.
  - case_bool_decide; [done|]. by destruct x.
Qed.

Lemma head_snoc {A} (xs : list A) (y : A) : xs ≠ [] → head (xs ++ [y]) = head xs.
Proof. by destruct xs. Qed.

Lemma last_snoc_Some {A} (xs : list A) (y : A) : last (xs ++ [y]) = Some y.
Proof. apply last_snoc. Qed.

Lemma merged_from_first l e :
  Spec.dropped e = false →
  Spec.contributing (py_name e) l = [] →
  Spec.merged_from (l ++ [e]) (first_entry e).
Proof.
  intros Hkept Hnone. unfold Spec.merged_from. cbn [first_entry py_name].
  rewrite contributing_snoc, Hnone, bool_decide_eq_true_2 by done. cbn.
  repeat split; try done;
    match goal with |- ?x = _ => by destruct x end.
Qed.

Lemma merged_from_add l e o :
  Spec.dropped e = false →
  py_name e = py_name o →
  Spec.merged_from l o →
  Spec.merged_from (l ++ [e]) (add_fragment o e).
Proof.
  intros Hkept Hname (Hne & Hexpr & Hsubs & Heqn & Hdoc & Hunit & Hlims & Hargs & Hkind & Hreal).
  unfold Spec.merged_from. cbn [add_fragment py_name py_expr subs eqn doc unit lims
    arguments kind real_name].
  rewrite contributing_snoc, bool_decide_eq_true_2 by done.
  rewrite !fmap_app. cbn [fmap list_fmap].
  rewrite !first_nonempty_snoc, last_snoc, !head_snoc
    by (intros Hnil; by apply fmap_nil_inv in Hnil).
  repeat split; try congruence.
  intros Hnil. by apply app_nil in Hnil as [_ ?].
Qed.

Lemma merged_from_other l e m :
  ¬ (Spec.dropped e = false ∧ py_name e = py_name m) →
  Spec.merged_from l m → Spec.merged_from (l ++ [e]) m.
Proof.
  intros Hother Hm. unfold Spec.merged_from in *.
  rewrite contributing_snoc, bool_decide_eq_false_2 by done.
  by rewrite app_nil_r.
Qed.

Lemma merge_step_invariant l outs e :
  merged_so_far l outs → merged_so_far (l ++ [e]) (merge_step outs e).
Proof.
  intros (Hdup & Hentries & Hkeys). unfold merge_step, merged_so_far.
  destruct (bool_decide_reflect (py_expr e = "None")) as [Hnone|Hkept].
  - (* the fragment is dropped *)
    assert (Spec.dropped e = true) as Hd by by apply bool_decide_eq_true_2.
    split; [done|]. split.
    + eapply Forall_impl; [done|]. intros [k m] [? ?]. split; [done|].
      apply merged_from_other; [|done]. intros [? _]. congruence.
    + intros n. rewrite contributing_snoc, bool_decide_eq_false_2, app_nil_r; [done|].
      intros [? _]. congruence.
  - assert (Spec.dropped e = false) as Hd by by apply bool_decide_eq_false_2.
    destruct (decide (py_name e ∈ outs.*1)) as [Hin|Hnew].
    + (* a further fragment of a known name *)
      rewrite update_entry_present by done.
      split; [by rewrite updated_keys|]. split.
      * apply Forall_fmap. eapply Forall_impl; [done|].
        intros [k m] [Hk Hm]. unfold updated. cbn in *.
        case_bool_decide as Heq; cbn.
        -- split; [done|]. apply merged_from_add; [done|congruence|done].
        -- split; [done|]. apply merged_from_other; [|done].
           intros [_ ?]. congruence.
      * intros n. rewrite updated_keys, contributing_snoc, Hkeys.
        case_bool_decide as Heq; [|by rewrite app_nil_r].
        destruct Heq as [_ <-]. apply Hkeys in Hin. split; [|done].
        intros _ Hnil. by apply app_nil in Hnil as [_ ?].
    + (* the first fragment of a name *)
      rewrite update_entry_absent by done.
      assert (Spec.contributing (py_name e) l = []) as Hempty.
      { destruct (Spec.contributing (py_name e) l) eqn:Hc; [done|].
        exfalso. apply Hnew, Hkeys. by rewrite Hc. }
      rewrite fmap_app. cbn [fmap list_fmap fst]. split.
      { apply NoDup_app. repeat split; [done| |apply NoDup_singleton].
        intros x Hx Hx'. apply list_elem_of_singleton in Hx' as ->. done. }
      split.
      * apply Forall_app. split.
        -- eapply Forall_impl; [done|]. intros [k m] [Hk Hm]. split; [done|].
           apply merged_from_other; [|done]. cbn in *.
           intros [_ Heq]. destruct Hm as [Hne _]. apply Hne. by rewrite <- Heq.
        -- constructor; [|constructor]. split; [done|].
           by apply merged_from_first.
      * intros n. rewrite elem_of_app, list_elem_of_singleton, contributing_snoc, Hkeys.
        case_bool_decide as Heq.
        -- destruct Heq as [_ <-]. split; [|auto].
           intros _ Hnil. by apply app_nil in Hnil as [_ ?].
        -- rewrite app_nil_r. split; [|auto].
           intros [? | ->]; [done|]. exfalso. by apply Heq.
Qed.

Lemma merge_invariant l : merged_so_far l (foldl merge_step [] l).
Proof.
  induction l as [|e l IH] using rev_ind.
  - repeat split; [constructor | constructor | by intros ?%elem_of_nil | done].
  - rewrite foldl_app. cbn [foldl]. by apply merge_step_invariant.
Qed.

End Merger.

Lemma contributing_nonempty (n : string) (l : list element) :
  Spec.contributing n l ≠ [] ↔ ∃ e, e ∈ l ∧ Spec.dropped e = false ∧ py_name e = n.
Proof.
  unfold Spec.contributing. split.
  - intros Hne. destruct (filter _ l) as [|e fs] eqn:Hf; [done|].
    assert (e ∈ filter (λ e, Spec.dropped e = false ∧ py_name e = n) l) as Hin
      by (rewrite Hf; left).
    apply list_elem_of_filter in Hin as [[? ?] ?]. by exists e.
  - intros (e & Hin & Hkept & Hname) Hnil.
    assert (e ∈ filter (λ e, Spec.dropped e = false ∧ py_name e = n) l) as Hin'
      by by apply list_elem_of_filter.
    rewrite Hnil in Hin'. by apply elem_of_nil in Hin'.
Qed.

(** C8: the merger returns one element for each name that occurs in a
    fragment whose expression is not the sentinel [None], and no other; each
    merged element holds the expressions, subscripts and equation texts of
    its fragments in the order seen, equally many of each, the first
    non-empty documentation, unit and limits, and the call arguments of its
    last fragment. *)
Theorem merge_partial_elements_spec (element_list : list element) :
  NoDup (py_name <$> merge_partial_elements element_list)
  ∧ (∀ n : string,
       n ∈ py_name <$> merge_partial_elements element_list
       ↔ ∃ e, e ∈ element_list ∧ py_expr e ≠ "None" ∧ py_name e = n)
  ∧ Forall (Spec.merged_from element_list) (merge_partial_elements element_list)
  ∧ Forall (λ m, length (py_expr m) = length (subs m)
                 ∧ length (py_expr m) = length (eqn m))
      (merge_partial_elements element_list).
Proof.
  destruct (merge_invariant element_list) as (Hdup & Hentries & Hkeys).
  unfold merge_partial_elements.
  set (outs := foldl merge_step [] element_list) in *.
  assert (py_name <$> outs.*2 = outs.*1) as Hnames.
  { rewrite <- list_fmap_compose. apply list_fmap_ext.
    intros i km Hi. cbn. eapply Forall_lookup_1 in Hentries as [Hk _]; done. }
  rewrite Hnames. split; [done|]. split.
  { intros n. rewrite Hkeys, contributing_nonempty.
    split; intros (e & Hin & Hkept & Hname); exists e; repeat split; try done.
    - unfold Spec.dropped in Hkept. by apply bool_decide_eq_false_1 in Hkept.
    - by apply bool_decide_eq_false_2. }
  assert (Forall (Spec.merged_from element_list) outs.*2) as Hmerged.
  { apply Forall_fmap. eapply Forall_impl; [done|]. by intros km [_ ?]. }
  split; [done|].
  eapply Forall_impl; [exact Hmerged|].
  intros m (_ & -> & -> & -> & _). by rewrite !length_fmap.
Qed.

(** Fragments with names of their own are merged each into its own entry. *)
Lemma merge_distinct (acc : list (string * merged_element)) (es : list element) :
  NoDup (py_name <$> es) →
  Forall (λ e, py_expr e ≠ "None") es →
  (∀ e, e ∈ es → py_name e ∉ acc.*1) →
  foldl merge_step acc es = acc ++ ((λ e, (py_name e, first_entry e)) <$> es).
Proof.
  revert acc. induction es as [|e es IH]; intros acc Hdup Hkept Hnew.
  { by rewrite app_nil_r. }
  apply NoDup_cons in Hdup as [He Hdup]. apply Forall_cons in Hkept as [Hk Hkept].
  cbn [foldl]. unfold merge_step at 2.
  rewrite bool_decide_eq_false_2 by done.
  rewrite update_entry_absent by (apply Hnew; left).
  rewrite IH; [by rewrite <- app_assoc|done|done|].
  intros e' He'. rewrite fmap_app. cbn. rewrite elem_of_app, list_elem_of_singleton.
  intros [Hin | Heq].
  - by apply (Hnew e'); [right|].
  - apply He. rewrite <- Heq. by apply list_elem_of_fmap_2.
Qed.

Lemma merge_singletons (es : list element) :
  NoDup (py_name <$> es) →
  Forall (λ e, py_expr e ≠ "None") es →
  merge_partial_elements es = first_entry <$> es.
Proof.
  intros Hdup Hkept. unfold merge_partial_elements.
  rewrite merge_distinct; [|done|done|by intros ? ? ?%elem_of_nil].
  cbn. rewrite <- list_fmap_compose. by apply list_fmap_ext.
Qed.

(** ** The element assembler *)

Lemma index_lookup {A} (l : list A) (i : nat) (a : A) : l !! i = Some a → index l i = Ok a.
Proof. unfold index. by intros ->. Qed.

Lemma sum_bools_no_ADD (py_exprs : list string) :
  sum_bools (no_ADD py_exprs)
    = length (filter (λ e, Str.contains "ADD" e = false) py_exprs).
Proof.
  unfold sum_bools, no_ADD. induction py_exprs as [|e es IH]; [done|].
  cbn [fmap list_fmap]. rewrite !filter_cons.
  destruct (Str.contains "ADD" e); cbn [negb];
    repeat case_decide; try done; cbn [length]; by rewrite IH.
Qed.

Lemma combine_fragments_spec `{Externals} (sd : subscript_dict) (flags : list bool)
    (i : nat) (fragments : list (string * subs_t)) (py_expr_i : list string)
    (g : globals) :
  (∀ j e s, fragments !! j = Some (e, s) →
            flags !! (i + j) = Some (negb (Str.contains "ADD" e))) →
  flags !! (i + length fragments) = Some true →
  ∃ g' : globals,
    combine_fragments flags sd i fragments py_expr_i g
      = (Ok (py_expr_i ++ Spec.combined (Str.contains "ADD") sd fragments), g')
    ∧ build_names g' = build_names g.
Proof.
  revert i py_expr_i g.
  induction fragments as [|[e s] rest IH]; intros i acc g Hflags Hend.
  { exists g. by rewrite app_nil_r. }
  assert (∀ j e s, rest !! j = Some (e, s) →
                   flags !! (S i + j) = Some (negb (Str.contains "ADD" e))) as Hrest.
  { intros j e' s' Hj. replace (S i + j) with (i + S j) by lia. by apply (Hflags (S j) e' s'). }
  assert (flags !! (S i + length rest) = Some true) as Hend'.
  { by replace (S i + length rest) with (i + length ((e, s) :: rest)) by (cbn; lia). }
  pose proof (Hflags 0 e s eq_refl) as Hthis. rewrite Nat.add_0_r in Hthis.
  cbn [combine_fragments Spec.combined].
  rewrite (bind_lift_ok _ _ _ _ (index_lookup _ _ _ Hthis)).
  destruct (Str.contains "ADD" e); cbn [negb].
  { apply IH; done. }
  assert (flags !! (i + 1)
          = Some (negb match rest with
                       | [] => false
                       | (e', _) :: _ => Str.contains "ADD" e'
                       end)) as Hnext.
  { destruct rest as [|[e' s'] rest'].
    - exact Hend.
    - by apply (Hflags 1 e' s'). }
  rewrite (bind_lift_ok _ _ _ _ (index_lookup _ _ _ Hnext)).
  destruct (match rest with [] => false | (e', _) :: _ => Str.contains "ADD" e' end);
    cbn [negb].
  - destruct (IH (S i) (acc ++ [e]) g Hrest Hend') as (g' & Hrun & Hnames).
    exists g'. by rewrite Hrun, <- app_assoc.
  - unfold bind at 1, import_utils, set_imports, modify.
    match goal with
    | |- context [combine_fragments flags sd (S i) rest ?a ?g1] =>
        destruct (IH (S i) a g1 Hrest Hend') as (g' & Hrun & Hnames)
    end.
    exists g'. by rewrite Hrun, <- app_assoc.
Qed.

Lemma element_expression_spec `{Externals} (py_exprs : list string)
    (subss : list subs_t) (sd : subscript_dict) (g : globals) :
  length py_exprs = length subss →
  if (1 <? length (filter (λ e, Str.contains "ADD" e = false) py_exprs))%nat
  then ∃ g' : globals,
         element_expression py_exprs subss sd g
           = (Ok ("xrmerge(["
                  +:+ Str.join ("," +:+ Str.nl)
                        (Spec.combined (Str.contains "ADD") sd (zip py_exprs subss))
                  +:+ ",])"), g')
         ∧ "xrmerge" ∈ utils (import_modules g')
         ∧ build_names g' = build_names g
  else element_expression py_exprs subss sd g = (index py_exprs 0, g).
Proof.
  intros Hlen. unfold element_expression. rewrite sum_bools_no_ADD.
  destruct (1 <? _)%nat; [|done]. unfold no_ADD.
  destruct (combine_fragments_spec sd (((λ e, negb (Str.contains "ADD" e)) <$> py_exprs)
              ++ [true]) 0 (zip py_exprs subss) [] g) as (g' & Hrun & Hnames).
  - intros j e s Hj. apply lookup_zip_with_Some in Hj as (e' & s' & [= <- <-] & He & Hs).
    cbn. rewrite lookup_app_l by (rewrite length_fmap; by eapply lookup_lt_Some).
    by rewrite list_lookup_fmap, He.
  - cbn. rewrite length_zip_with, <- Hlen, Nat.min_id.
    rewrite lookup_app_r by by rewrite length_fmap.
    by rewrite length_fmap, Nat.sub_diag.
  - unfold bind at 1. rewrite Hrun. eexists. split; [reflexivity|].
    cbn. split; [set_solver|done].
Qed.

Lemma cache_type_of_policy (k : string) :
  cache_type_of k
    = match Spec.policy_of k with
      | Some p => Ok (Spec.decorator p)
      | None => Err (AttributeError "Bad value for 'kind'")
      end.
Proof.
  unfold cache_type_of, Spec.policy_of.
  repeat case_bool_decide; subst; try done;
    repeat match goal with
           | H : _ ∈ _ :: _ |- _ => apply elem_of_cons in H as [H|H]
           | H : _ ∈ [] |- _ => by apply elem_of_nil in H
           | H : ¬ (_ ∈ _ :: _) |- _ => apply not_elem_of_cons in H as [? H]
           end; done.
Qed.

Lemma subs_decoration_ok `{Externals} (k : string) (subss : list subs_t)
    (sd : subscript_dict) (g : globals) :
  subss ≠ [] →
  ∃ (dec : string * string) (g' : globals),
    subs_decoration k subss sd g = (Ok dec, g') ∧ build_names g' = build_names g.
Proof.
  intros Hne. destruct subss as [|s subss]; [done|].
  unfold subs_decoration. rewrite (bind_lift_ok _ _ _ s) by done.
  destruct (subs_given s); [case_bool_decide|]; by eexists _, _.
Qed.

(** The text of an element, once its decorator, its expression and its
    subscript decoration are known. *)
Lemma build_element_run `{Externals} (element : merged_element) (sd : subscript_dict)
    (g g1 g2 : globals) (cache e first : string) (dec : string * string) :
  cache_type_of (kind element) = Ok cache →
  element_expression (py_expr element) (subs element) sd g = (Ok e, g1) →
  subs_decoration (kind element) (subs element) sd g1 = (Ok dec, g2) →
  py_expr element !! 0 = Some first →
  build_element element sd g
    = (Ok (Str.dedent
             (if bool_decide (kind element ∈ ["stateful"; "external"])
              then assignment_text (py_name element) first
              else if bool_decide (kind element = "external_add")
              then add_statement_text (Str.split_head "ADD" (py_name element)) first
              else function_text element cache dec.1 dec.2 (eqn_lines (eqn element))
                     (Str.replace Str.nl (Str.nl +:+ "    ")
                        (Str.replace Str.backslash Str.nl (doc element)))
                     (Str.replace Str.nl (Str.nl +:+ Str.repeat " " 8)
                        ("return " +:+ e)))), g2).
Proof.
  intros Hcache Hexpr Hdec Hfirst. unfold build_element.
  rewrite (bind_lift_ok _ _ _ _ Hcache).
  rewrite (bind_ok _ _ _ _ _ Hexpr), (bind_ok _ _ _ _ _ Hdec).
  repeat case_bool_decide;
    unfold bind, lift, ret; rewrite ?(index_lookup _ _ _ Hfirst); reflexivity.
Qed.

Lemma build_element_ok `{Externals} (element : merged_element) (sd : subscript_dict)
    (g : globals) (p : Spec.policy) :
  Spec.policy_of (kind element) = Some p →
  py_expr element ≠ [] →
  length (py_expr element) = length (subs element) →
  ∃ (text : string) (g' : globals),
    build_element element sd g = (Ok text, g') ∧ build_names g' = build_names g.
Proof.
  intros Hp Hne Hlen.
  destruct (py_expr element) as [|first rest] eqn:Hexprs; [done|].
  assert (∃ e g1, element_expression (py_expr element) (subs element) sd g = (Ok e, g1)
                  ∧ build_names g1 = build_names g) as (e & g1 & Hexpr & Hn1).
  { pose proof (element_expression_spec (py_expr element) (subs element) sd g) as Hspec.
    rewrite Hexprs in *. specialize (Hspec Hlen). revert Hspec.
    destruct (1 <? _)%nat.
    - intros (g' & -> & _ & ?). by eexists _, _.
    - intros ->. by eexists _, _. }
  destruct (subs_decoration_ok (kind element) (subs element) sd g1)
    as (dec & g2 & Hdec & Hn2).
  { intros Hnil. rewrite Hnil in Hlen. done. }
  eexists _, g2. split; [|congruence].
  eapply build_element_run; [|exact Hexpr|exact Hdec|by rewrite Hexprs].
  by rewrite cache_type_of_policy, Hp.
Qed.

(** With a kind of the table, the only exception left is the index error
    of an element without a first fragment. *)
Lemma combine_fragments_error `{Externals} (sd : subscript_dict) (flags : list bool)
    (i : nat) (fragments : list (string * subs_t)) (py_expr_i : list string)
    (g g' : globals) (err : error) :
  combine_fragments flags sd i fragments py_expr_i g = (Err err, g') → err = IndexError.
Proof.
  revert i py_expr_i g.
  induction fragments as [|[e s] rest IH]; intros i acc g; [done|].
  cbn [combine_fragments]. unfold bind at 1, lift, index.
  destruct (flags !! i) as [[|]|]; [| apply IH | by intros [= <- _]].
  unfold bind at 1, lift, index.
  destruct (flags !! (i + 1)) as [[|]|]; [| apply IH | by intros [= <- _]].
  unfold bind at 1, import_utils, set_imports, modify. apply IH.
Qed.

Lemma build_element_error `{Externals} (element : merged_element) (sd : subscript_dict)
    (g g' : globals) (p : Spec.policy) (err : error) :
  Spec.policy_of (kind element) = Some p →
  build_element element sd g = (Err err, g') → err = IndexError.
Proof.
  intros Hp. unfold build_element.
  rewrite (bind_lift_ok _ _ _ (Spec.decorator p)) by by rewrite cache_type_of_policy, Hp.
  unfold bind at 1.
  destruct (element_expression _ _ sd g) as [[e|err1] g1] eqn:Hexpr.
  - unfold bind at 1.
    destruct (subs_decoration _ _ sd g1) as [[dec|err2] g2] eqn:Hdec.
    + unfold bind, lift, ret, index.
      repeat case_bool_decide; destruct (py_expr element !! 0); try done;
        by intros [= <- _].
    + intros [= <- _]. revert Hdec. unfold subs_decoration, bind, lift, index, ret.
      destruct (subs element !! 0) as [s|]; [|by intros [= <- _]].
      destruct (subs_given s); [case_bool_decide|]; done.
  - intros [= <- _]. revert Hexpr. unfold element_expression.
    destruct (1 <? _)%nat.
    + unfold bind at 1.
      destruct (combine_fragments _ sd 0 _ [] g) as [[l|err3] g3] eqn:Hc; [done|].
      intros [= <- _]. by eapply combine_fragments_error.
    + unfold lift, index. destruct (py_expr element !! 0); [done|]. by intros [= <- _].
Qed.

(** C4: the decorator of an element is that of the policy its kind has in
    the table of section 4.2; a kind outside the table makes
    [build_element] raise the attribute error and leave the registries
    alone; a kind in the table never does: the element is assembled when it
    has a first fragment and as many subscript lists as expressions, and the
    one exception it can still meet is the index error of a missing
    fragment. *)
Theorem caching_policy_total `{Externals} (element : merged_element)
    (sd : subscript_dict) (g : globals) :
  cache_type_of (kind element)
    = match Spec.policy_of (kind element) with
      | Some p => Ok (Spec.decorator p)
      | None => Err (AttributeError "Bad value for 'kind'")
      end
  ∧ match Spec.policy_of (kind element) with
    | None =>
        build_element element sd g = (Err (AttributeError "Bad value for 'kind'"), g)
    | Some p =>
        (py_expr element ≠ [] →
         length (py_expr element) = length (subs element) →
         ∃ (text : string) (g' : globals), build_element element sd g = (Ok text, g'))
        ∧ ∀ (err : error) (g' : globals),
            build_element element sd g = (Err err, g') → err = IndexError
    end.
Proof.
  split; [apply cache_type_of_policy|].
  destruct (Spec.policy_of (kind element)) as [p|] eqn:Hp.
  - split.
    + intros Hne Hlen.
      destruct (build_element_ok element sd g p Hp Hne Hlen) as (text & g' & Hrun & _).
      by eexists _, _.
    + intros err g'. by apply build_element_error with p.
  - unfold build_element. apply bind_lift_err.
    by rewrite cache_type_of_policy, Hp.
Qed.

(** The eight kinds of the table and their policies. *)
Lemma policy_table :
  Spec.policy_of "constant" = Some Spec.RunCached
  ∧ Spec.policy_of "component" = Some Spec.StepCached
  ∧ Spec.policy_of "component_ext_data" = Some Spec.StepCached
  ∧ Spec.policy_of "lookup" = Some Spec.Uncached
  ∧ Spec.policy_of "setup" = Some Spec.Uncached
  ∧ Spec.policy_of "stateful" = Some Spec.Uncached
  ∧ Spec.policy_of "external" = Some Spec.Uncached
  ∧ Spec.policy_of "external_add" = Some Spec.Uncached.
Proof. repeat split; reflexivity. Qed.

(** ** References and the [ADD] marker *)


Lemma call_suffix_clean (r : request) :
  ∃ t, call_suffix r = String "(" t ∧ Str.contains "ADD" (call_suffix r) = false.
Proof. destruct r; by eexists. Qed.



(** ** The text of an assembled statement *)

Lemma contains_char_app (c : ascii) (a b : string) :
  Str.contains (String c "") (a +:+ b)
    = Str.contains (String c "") a || Str.contains (String c "") b.
Proof.
  induction a as [|x a IH]; [by destruct b|].
  rewrite StrFacts.app_cons. cbn [Str.contains Str.startswith].
  rewrite IH. destruct (Ascii.eqb c x); [done|]. cbn. by destruct a.
Qed.

Lemma one_line_app (a b : string) : one_line a → one_line b → one_line (a +:+ b).
Proof. unfold one_line, Str.nl. intros Ha Hb. by rewrite contains_char_app, Ha, Hb. Qed.

Lemma lines_app_nl (a b : string) :
  one_line a → Str.lines (a +:+ Str.nl +:+ b) = a :: Str.lines b.
Proof.
  unfold one_line, Str.nl. induction a as [|x a IH]; intros Ha; [done|].
  rewrite StrFacts.app_cons. cbn [Str.lines].
  apply StrFacts.contains_cons in Ha as [Hx Ha]. cbn [Str.startswith] in Hx.
  rewrite Ascii.eqb_sym. destruct (Ascii.eqb "010" x); [done|].
  by rewrite IH.
Qed.

Lemma lines_one_line (a : string) : one_line a → Str.lines a = [a].
Proof.
  unfold one_line, Str.nl. induction a as [|x a IH]; intros Ha; [done|].
  cbn [Str.lines].
  apply StrFacts.contains_cons in Ha as [Hx Ha]. cbn [Str.startswith] in Hx.
  rewrite Ascii.eqb_sym. destruct (Ascii.eqb "010" x); [done|].
  by rewrite IH.
Qed.

(** A one-line statement written at the indentation of the templates comes
    out of [dedent] at the margin, between two line feeds. *)
Lemma dedent_statement (s : string) :
  one_line s → starts_unindented s →
  Str.dedent (Str.nl +:+ "    " +:+ s +:+ Str.nl +:+ "            ")
    = Str.nl +:+ s +:+ Str.nl.
Proof.
  intros Hline Hstart.
  assert (Str.lines (Str.nl +:+ "    " +:+ s +:+ Str.nl +:+ "            ")
          = [""; "    " +:+ s; "            "]) as Hlines.
  { etrans; [exact (lines_app_nl "" _ eq_refl)|]. f_equal.
    rewrite <- StrFacts.app_assoc. rewrite lines_app_nl; [done|].
    by apply one_line_app. }
  destruct s as [|c s]; [done|]. destruct Hstart as [Hblank _].
  unfold Str.dedent. rewrite Hlines.
  change ("    " +:+ String c s)
    with (String " " (String " " (String " " (String " " (String c s))))).
  cbn [fmap list_fmap Str.all_blank Str.is_blank Ascii.eqb Bool.eqb orb andb].
  rewrite Hblank.
  cbn [andb Str.margin_of Str.all_blank Str.indent_of Str.is_blank Ascii.eqb Bool.eqb orb].
  rewrite Hblank.
  cbn [fmap list_fmap Str.startswith Str.drop_prefix Ascii.eqb Bool.eqb Str.join].
  by rewrite StrFacts.app_nil_r.
Qed.

Lemma starts_unindented_app (a b : string) :
  starts_unindented a → starts_unindented (a +:+ b).
Proof. by destruct a. Qed.

(** ** Deduplication of external objects *)

(** The statement assembled for an [external_add] element on its own. *)
Lemma build_element_external_add `{Externals} (e : element) (sd : subscript_dict)
    (g : globals) :
  kind e = "external_add" →
  ∃ g' : globals,
    build_element (first_entry e) sd g
      = (Ok (Str.dedent (add_statement_text (Str.split_head "ADD" (py_name e))
                           (py_expr e))), g').
Proof.
  intros Hkind.
  pose proof (element_expression_spec [py_expr e] [subs e] sd g eq_refl) as Hexpr.
  assert ((1 <? length (filter (λ x, Str.contains "ADD" x = false) [py_expr e]))%nat
          = false) as Hone.
  { rewrite filter_cons, filter_nil. by case_decide. }
  rewrite Hone in Hexpr.
  destruct (subs_decoration_ok (kind e) [subs e] sd g) as (dec & g2 & Hdec & _); [done|].
  exists g2.
  rewrite (build_element_run (first_entry e) sd g g g2 "" (py_expr e) (py_expr e) dec);
    cbn [first_entry kind py_expr subs py_name]; try done.
  - rewrite Hkind. by rewrite bool_decide_eq_false_2, bool_decide_eq_true_2
      by (done || set_solver).
  - by rewrite Hkind.
Qed.

Lemma appended_elements `{Externals} (rs : list request)
    (outs : list (string * list element)) :
  Forall2 appended rs outs →
  Forall (λ e, kind e = "external_add" ∧ Str.startswith ".add(" (py_expr e) = true)
    (emitted outs).
Proof.
  unfold emitted. induction 1 as [|r out rs outs Happ _ IH]; [constructor|].
  destruct Happ as (k & e & -> & _ & ? & ?). cbn. by constructor.
Qed.

Lemma appended_names `{Externals} (c : string) (rs : list request)
    (outs : list (string * list element)) :
  Forall (λ r, canonical_name r = c) rs →
  Forall2 appended rs outs →
  Forall (λ e, ∃ k : nat, py_name e = c +:+ "ADD_" +:+ pretty k) (emitted outs).
Proof.
  unfold emitted. intros Hsame Happ. revert Hsame.
  induction Happ as [|r out rs outs Happ _ IH]; intros Hsame; [constructor|].
  apply Forall_cons in Hsame as [<- Hsame].
  destruct Happ as (k & e & -> & ? & _). cbn. constructor; eauto.
Qed.

(** The statement assembled for an [external_add] element whose expression
    is a one-line text: the expression put behind the canonical name. *)
Lemma build_element_external_add_text `{Externals} (e : element) (sd : subscript_dict)
    (g : globals) (c suffix : string) :
  kind e = "external_add" →
  py_name e = c +:+ "ADD_" +:+ suffix →
  Str.contains "ADD" c = false →
  one_line c →
  starts_unindented c →
  one_line (py_expr e) →
  ∃ g' : globals,
    build_element (first_entry e) sd g
      = (Ok (Str.nl +:+ c +:+ py_expr e +:+ Str.nl), g').
Proof.
  intros Hkind Hname Hclean Hline Hstart Hexpr.
  destruct (build_element_external_add e sd g Hkind) as (g' & Hbuild).
  exists g'. rewrite Hbuild, Hname, StrFacts.split_head_ADD by done.
  do 2 f_equal. unfold add_statement_text.
  assert (∀ t, c +:+ py_expr e +:+ t = (c +:+ py_expr e) +:+ t) as Hgroup
    by (intros; by rewrite !StrFacts.app_assoc).
  rewrite !Hgroup. apply dedent_statement.
  - by apply one_line_app.
  - by apply starts_unindented_app.
Qed.

(** C5, as the code has it: [N] requests that compute the same object
    name, the first of which finds the name unregistered, emit one
    [external] element, under the canonical name, and [N-1] [external_add]
    elements; the [N] names differ from one another, so no appended name is
    the canonical one; each [external_add] element holds a call of [.add],
    and when that call is a one-line text the statement assembled for the
    element is this call put behind the canonical name, between two line
    feeds. *)
Theorem external_dedup `{Externals} (sd : subscript_dict) (c : string)
    (r : request) (rs : list request) (g : globals) :
  Forall (λ r, canonical_name r = c) (r :: rs) →
  c ∉ build_names g →
  Str.contains "%" c = false →
  Str.contains "ADD" c = false →
  one_line c →
  starts_unindented c →
  ∃ (outs : list (string * list element)) (g' : globals),
    serve_all sd (r :: rs) g = (Ok outs, g')
    ∧ kind <$> emitted outs = "external" :: replicate (length rs) "external_add"
    ∧ NoDup (py_name <$> emitted outs)
    ∧ head (py_name <$> emitted outs) = Some c
    ∧ Forall (λ n, n ≠ c) (tail (py_name <$> emitted outs))
    ∧ merge_partial_elements (emitted outs) = first_entry <$> emitted outs
    ∧ Forall (λ e, kind e = "external_add" →
                   Str.startswith ".add(" (py_expr e) = true
                   ∧ (one_line (py_expr e) →
                      ∀ g1 : globals, ∃ g2 : globals,
                        build_element (first_entry e) sd g1
                          = (Ok (Str.nl +:+ c +:+ py_expr e +:+ Str.nl), g2)))
        (emitted outs).
Proof.
  intros Hsame Hfresh Hplain Hclean Hline Hstart.
  destruct (serve_all_fresh sd c r rs g Hsame Hfresh Hplain)
    as (out & outs & g' & Hrun & Hnew & Happ & Hdup).
  apply Forall_cons in Hsame as [Hr Hsame].
  pose proof (appended_elements rs outs Happ) as Hadds.
  pose proof (appended_names c rs outs Hsame Happ) as Hnames.
  destruct Hnew as (e & -> & Hname & Hkind & Hext).
  exists ((canonical_name r +:+ call_suffix r, [e]) :: outs), g'.
  split; [done|].
  change (emitted ((canonical_name r +:+ call_suffix r, [e]) :: outs))
    with (e :: emitted outs) in *.
  cbn [fmap list_fmap head tail].
  assert (Forall (λ n, n ≠ c) (py_name <$> emitted outs)) as Hothers.
  { apply Forall_fmap. eapply Forall_impl; [exact Hnames|].
    intros e' [k Hk]. unfold compose. rewrite Hk. by apply StrFacts.app_ne_self. }
  repeat split.
  - rewrite Hkind. f_equal.
    clear -Happ. unfold emitted.
    induction Happ as [|r out rs outs (k & e & -> & _ & Hk & _) _ IH]; [done|].
    cbn. by rewrite Hk, IH.
  - done.
  - by rewrite Hname, Hr.
  - done.
  - apply (merge_singletons (e :: emitted outs)); [done|].
    constructor.
    + intros Hnone. by rewrite Hnone in Hext.
    + eapply Forall_impl; [exact Hadds|]. intros e' [_ Hadd] Hnone.
      by rewrite Hnone in Hadd.
  - constructor.
    + rewrite Hkind. done.
    + apply Forall_forall. intros e' Hin _.
      eapply Forall_forall in Hadds as [Hk Hadd]; [|done].
      eapply Forall_forall in Hnames as [k Hn]; [|done].
      split; [done|]. intros Hexpr g1.
      by apply (build_element_external_add_text e' sd g1 c (pretty k)).
Qed.

(** C5, as stated, fails: requests of different variants for one
    identifier compute different object names, so each of them creates an
    object of its own; and the first element of a sequence is named by the
    canonical name itself. *)
Lemma mixed_variants_make_three_objects :
  Forall (λ r, source_identifier r = "x")
    [Examples.data_A; Examples.constant_x; Examples.lookup_x]
  ∧ ∃ (outs : list (string * list element)) (g' : globals),
      @serve_all Reference.externals Examples.sd
        [Examples.data_A; Examples.constant_x; Examples.lookup_x] initial_globals
        = (Ok outs, g')
      ∧ kind <$> emitted outs = ["external"; "external"; "external"]
      ∧ kind <$> emitted outs ≠ "external" :: replicate 2 "external_add"
      ∧ py_name <$> emitted outs = ["_ext_data_x"; "_ext_constant_x"; "_ext_lookup_x"]
      ∧ head (py_name <$> emitted outs)
        = Some (@canonical_name Reference.externals Examples.data_A).
Proof.
  split; [by repeat constructor|].
  destruct (@serve_all Reference.externals Examples.sd
              [Examples.data_A; Examples.constant_x; Examples.lookup_x] initial_globals)
    as [[outs|err] g'] eqn:Hrun; vm_compute in Hrun; [|discriminate Hrun].
  injection Hrun as <- <-. eexists _, _. split; [reflexivity|].
  split; [reflexivity|]. split; [discriminate|]. split; reflexivity.
Qed.

(** C1, as the code has it: the reference a request returns is a call
    against the name of the element that request emits: the canonical name
    for the request that creates the object, and for each later request its
    own suffixed name, which is not the canonical one and carries the [ADD]
    marker. *)
Theorem external_references `{Externals} (sd : subscript_dict) (c : string)
    (r : request) (rs : list request) (g : globals) :
  Forall (λ r, canonical_name r = c) (r :: rs) →
  c ∉ build_names g →
  Str.contains "%" c = false →
  ∃ (outs : list (string * list element)) (g' : globals),
    serve_all sd (r :: rs) g = (Ok outs, g')
    ∧ Forall2 (λ r' out, ∃ e : element,
                 out.2 = [e] ∧ out.1 = py_name e +:+ call_suffix r')
        (r :: rs) outs
    ∧ head (references outs) = Some (c +:+ call_suffix r)
    ∧ Forall2 (λ r' ref, ∃ k : nat,
                 ref = (c +:+ "ADD_" +:+ pretty k) +:+ call_suffix r'
                 ∧ ref ≠ c +:+ call_suffix r'
                 ∧ Str.contains "ADD" ref = true)
        rs (tail (references outs)).
Proof.
  intros Hsame Hfresh Hplain.
  destruct (serve_all_fresh sd c r rs g Hsame Hfresh Hplain)
    as (out & outs & g' & Hrun & Hnew & Happ & _).
  apply Forall_cons in Hsame as [Hr Hsame].
  exists (out :: outs), g'. split; [done|].
  destruct Hnew as (e & -> & Hname & _). cbn [references fmap list_fmap head tail fst].
  split; [|split; [by rewrite Hr|]].
  - constructor; [exists e; by rewrite Hname|].
    eapply Forall2_impl; [exact Happ|].
    intros r' out (k & e' & -> & Hn & _). exists e'. by rewrite Hn.
  - clear Hrun. revert Hsame.
    induction Happ as [|r' out rs outs (k & e' & -> & _) _ IH]; intros Hsame;
      [constructor|].
    apply Forall_cons in Hsame as [Hr' Hsame].
    cbn. constructor; [|by apply IH].
    exists k. rewrite Hr'. split; [done|].
    destruct (call_suffix_clean r') as (t & Hsuffix & _).
    split.
    + rewrite StrFacts.app_assoc, Hsuffix. intros Heq.
      apply (inj (String.app c)) in Heq. discriminate Heq.
    + rewrite StrFacts.app_assoc. by apply StrFacts.contains_app_r.
Qed.

(** C1, as stated, fails: the second of two requests for the data of [x]
    is answered with a call against [_ext_data_xADD_1], not against the
    canonical [_ext_data_x]. *)
Lemma second_reference_is_suffixed :
  ∃ (outs : list (string * list element)) (g' : globals),
    @serve_all Reference.externals Examples.sd [Examples.data_A; Examples.data_B]
      initial_globals = (Ok outs, g')
    ∧ references outs = ["_ext_data_x(time())"; "_ext_data_xADD_1(time())"]
    ∧ ¬ Forall (λ ref, ref = @canonical_name Reference.externals Examples.data_B
                               +:+ call_suffix Examples.data_B)
          (references outs).
Proof.
  destruct (@serve_all Reference.externals Examples.sd
              [Examples.data_A; Examples.data_B] initial_globals)
    as [[outs|err] g'] eqn:Hrun; vm_compute in Hrun; [|discriminate Hrun].
  injection Hrun as <- <-. eexists _, _. split; [reflexivity|].
  split; [reflexivity|].
  intros Hall. apply Forall_cons in Hall as [_ Hall].
  apply Forall_cons in Hall as [Hsecond _]. discriminate Hsecond.
Qed.

(** ** The function-call builder *)

Lemma walk_parameters_app (user_arguments : list string) (st : loop_state)
    (pre rest : list parameter) :
  walk_parameters user_arguments st (pre ++ rest)
    = result_bind (walk_parameters user_arguments st pre)
        (λ st', walk_parameters user_arguments st' rest).
Proof.
  revert st. induction pre as [|p pre IH]; intros st; [done|].
  cbn. destruct (parameter_step user_arguments st p); [apply IH | done].
Qed.



(** ** The model assembler *)

(** A build that returns has emptied both registries. *)
Lemma build_resets `{Externals} (element_list : list element) (sd : subscript_dict)
    (namespace : list (string * string)) (outfile_name : string)
    (g g' : globals) (out : build_output) :
  build element_list sd namespace outfile_name g = (Ok out, g') →
  build_names g' = ∅ ∧ import_modules g' = empty_imports.
Proof.
  unfold build, bind, get, lift, reset_registries, modify, ret.
  destruct (build_elements _ sd g) as [[funcs|err] g1]; [|done].
  destruct (black_format _) as [text|err]; [|done].
  case_bool_decide; [by intros [= <- <-]|].
  destruct (write_file _ _) as [[]|err]; [|done]. by intros [= <- <-].
Qed.

(** C9, on the code: a build that raises leaves the registries as they
    were.  After a request for the data of [x], a build that meets an
    element of a stray kind raises, [_ext_data_x] and [ExtData] stay
    registered, and the same request in the next translation is answered
    as an append to an object the new model does not have. *)
Theorem registries_survive_failed_build :
  ∃ (out1 out2 : string * list element) (g1 g2 g3 : globals),
    @serve Reference.externals Examples.sd Examples.data_A initial_globals
      = (Ok out1, g1)
    ∧ @build Reference.externals (out1.2 ++ [Examples.stray]) Examples.sd [] "return" g1
      = (Err (AttributeError "Bad value for 'kind'"), g2)
    ∧ "_ext_data_x" ∈ build_names g2
    ∧ "ExtData" ∈ external (import_modules g2)
    ∧ @serve Reference.externals Examples.sd Examples.data_A g2 = (Ok out2, g3)
    ∧ kind <$> out1.2 = ["external"]
    ∧ kind <$> out2.2 = ["external_add"].
Proof.
  destruct (@serve Reference.externals Examples.sd Examples.data_A initial_globals)
    as [[out1|err] g1] eqn:Hfirst; vm_compute in Hfirst; [|discriminate Hfirst].
  injection Hfirst as <- <-.
  eexists _, _, _, _, _. split; [reflexivity|].
  split; [vm_compute; reflexivity|].
  split; [by vm_compute|]. split; [by vm_compute|].
  split; [vm_compute; reflexivity|]. split; reflexivity.
Qed.

(** ** The theorems at concrete inputs *)

Lemma caching_policy_total_witness :
  py_expr Examples.rate ≠ []
  ∧ length (py_expr Examples.rate) = length (subs Examples.rate)
  ∧ ∃ (text : string) (g' : globals),
      @build_element Reference.externals Examples.rate Examples.sd initial_globals
        = (Ok text, g').
Proof.
  split; [discriminate|]. split; [reflexivity|].
  exact (proj1 (proj2 (@caching_policy_total Reference.externals Examples.rate
                         Examples.sd initial_globals))
           ltac:(discriminate) eq_refl).
Defined.


Lemma external_dedup_witness :
  Forall (λ r, @canonical_name Reference.externals r = "_ext_data_x")
    [Examples.data_A; Examples.data_B; Examples.data_B]
  ∧ ("_ext_data_x" ∉ build_names initial_globals)
  ∧ Str.contains "%" "_ext_data_x" = false
  ∧ Str.contains "ADD" "_ext_data_x" = false
  ∧ one_line "_ext_data_x"
  ∧ starts_unindented "_ext_data_x"
  ∧ ∃ (outs : list (string * list element)) (g' : globals),
      @serve_all Reference.externals Examples.sd
        [Examples.data_A; Examples.data_B; Examples.data_B] initial_globals
        = (Ok outs, g')
      ∧ kind <$> emitted outs = ["external"; "external_add"; "external_add"]
      ∧ NoDup (py_name <$> emitted outs)
      ∧ Forall (λ e, kind e = "external_add" →
                     ∀ g1 : globals, ∃ g2 : globals,
                       @build_element Reference.externals (first_entry e) Examples.sd g1
                         = (Ok (Str.nl
                                +:+ "_ext_data_x.add('data.xlsx', 'Sheet1', '1', 'B3', None, {'dim': ['B']})"
                                +:+ Str.nl), g2))
          (emitted outs).
Proof.
  assert (Forall (λ r, @canonical_name Reference.externals r = "_ext_data_x")
            [Examples.data_A; Examples.data_B; Examples.data_B]) as Hsame
    by (repeat constructor).
  assert ("_ext_data_x" ∉ build_names initial_globals) as Hfresh
    by apply not_elem_of_empty.
  assert (starts_unindented "_ext_data_x") as Hstart
    by (split; [reflexivity|discriminate]).
  split; [exact Hsame|]. split; [exact Hfresh|].
  split; [reflexivity|]. split; [reflexivity|].
  split; [reflexivity|]. split; [exact Hstart|].
  destruct (@external_dedup Reference.externals Examples.sd "_ext_data_x"
              Examples.data_A [Examples.data_B; Examples.data_B] initial_globals
              Hsame Hfresh eq_refl eq_refl eq_refl Hstart)
    as (outs & g' & Hrun & Hkinds & Hdup & _ & _ & _ & Hadds).
  exists outs, g'. split; [exact Hrun|]. split; [exact Hkinds|]. split; [exact Hdup|].
  vm_compute in Hrun. injection Hrun as <- <-.
  apply Forall_cons in Hadds as [_ Hadds].
  apply Forall_cons in Hadds as [Hsecond Hadds].
  apply Forall_cons in Hadds as [Hthird _].
  constructor; [intros Hkind; discriminate Hkind|].
  constructor; [intros _; exact (proj2 (Hsecond eq_refl) eq_refl)|].
  constructor; [intros _; exact (proj2 (Hthird eq_refl) eq_refl)|].
  constructor.
Defined.

Lemma external_references_witness :
  Forall (λ r, @canonical_name Reference.externals r = "_ext_data_x")
    [Examples.data_A; Examples.data_B]
  ∧ ("_ext_data_x" ∉ build_names initial_globals)
  ∧ Str.contains "%" "_ext_data_x" = false
  ∧ ∃ (outs : list (string * list element)) (g' : globals),
      @serve_all Reference.externals Examples.sd
        [Examples.data_A; Examples.data_B] initial_globals = (Ok outs, g')
      ∧ head (references outs) = Some "_ext_data_x(time())".
Proof.
  assert (Forall (λ r, @canonical_name Reference.externals r = "_ext_data_x")
            [Examples.data_A; Examples.data_B]) as Hsame
    by (repeat constructor).
  assert ("_ext_data_x" ∉ build_names initial_globals) as Hfresh
    by apply not_elem_of_empty.
  split; [exact Hsame|]. split; [exact Hfresh|]. split; [reflexivity|].
  destruct (@external_references Reference.externals Examples.sd "_ext_data_x"
              Examples.data_A [Examples.data_B] initial_globals Hsame Hfresh eq_refl)
    as (outs & g' & Hrun & _ & Hhead & _).
  exists outs, g'. split; [exact Hrun | exact Hhead].
Defined.



(** * Further properties *)

(** ** What the assembler does to the registries *)

Lemma assembler_frame_refl (g : globals) : assembler_frame g g.
Proof. unfold assembler_frame. repeat split; try done. set_solver. Qed.

Lemma assembler_frame_trans (g1 g2 g3 : globals) :
  assembler_frame g1 g2 → assembler_frame g2 g3 → assembler_frame g1 g3.
Proof.
  unfold assembler_frame.
  intros (? & ? & ? & ? & ? & ? & ? & ? & ?) (? & ? & ? & ? & ? & ? & ? & ? & ?).
  repeat split; try congruence; [set_solver | set_solver | auto].
Qed.

Lemma import_utils_frame (x : string) (g : globals) :
  x ∈ ["rearrange"; "xrmerge"] → assembler_frame g (import_utils x g).2.
Proof.
  intros Hx. unfold assembler_frame, import_utils, set_imports, modify. cbn.
  repeat split; try done; [set_solver|].
  apply elem_of_cons in Hx as [->|Hx]; [set_solver|].
  apply list_elem_of_singleton in Hx as ->. set_solver.
Qed.

Lemma import_subs_frame (g : globals) : assembler_frame g (import_subs g).2.
Proof.
  unfold assembler_frame, import_subs, set_imports, modify. cbn.
  repeat split; try done; set_solver.
Qed.

Lemma combine_fragments_frame `{Externals} (sd : subscript_dict) (flags : list bool)
    (i : nat) (fragments : list (string * subs_t)) (py_expr_i : list string)
    (g : globals) :
  assembler_frame g (combine_fragments flags sd i fragments py_expr_i g).2.
Proof.
  revert i py_expr_i g.
  induction fragments as [|[e s] rest IH]; intros i acc g.
  { apply assembler_frame_refl. }
  cbn [combine_fragments]. unfold bind at 1, lift, index.
  destruct (flags !! i) as [[|]|]; [| apply IH | apply assembler_frame_refl].
  unfold bind at 1, lift, index.
  destruct (flags !! (i + 1)) as [[|]|]; [| apply IH | apply assembler_frame_refl].
  unfold bind at 1.
  destruct (import_utils "rearrange" g) as [[[]|err] g1] eqn:Himport.
  - eapply assembler_frame_trans; [|apply IH].
    replace g1 with (import_utils "rearrange" g).2 by by rewrite Himport.
    apply import_utils_frame. set_solver.
  - discriminate Himport.
Qed.

Lemma element_expression_frame `{Externals} (py_exprs : list string)
    (subss : list subs_t) (sd : subscript_dict) (g : globals) :
  assembler_frame g (element_expression py_exprs subss sd g).2.
Proof.
  unfold element_expression. destruct (1 <? _)%nat; [|apply assembler_frame_refl].
  unfold bind at 1.
  pose proof (combine_fragments_frame sd (no_ADD py_exprs ++ [true]) 0
                (zip py_exprs subss) [] g) as Hloop.
  destruct (combine_fragments _ sd 0 _ [] g) as [[l|err] g1]; [|exact Hloop].
  unfold bind, ret. cbn [snd] in *.
  eapply assembler_frame_trans; [exact Hloop|].
  apply (import_utils_frame "xrmerge"). set_solver.
Qed.

Lemma subs_decoration_frame `{Externals} (k : string) (subss : list subs_t)
    (sd : subscript_dict) (g : globals) :
  assembler_frame g (subs_decoration k subss sd g).2.
Proof.
  unfold subs_decoration, bind, lift, index, ret.
  destruct (subss !! 0) as [s|]; [|apply assembler_frame_refl].
  destruct (subs_given s); [case_bool_decide|]; try apply assembler_frame_refl.
  apply import_subs_frame.
Qed.

Lemma build_element_keeps `{Externals} (element : merged_element)
    (sd : subscript_dict) (g : globals) :
  assembler_frame g (build_element element sd g).2.
Proof.
  unfold build_element. unfold bind at 1, lift.
  destruct (cache_type_of (kind element)) as [cache|err]; [|apply assembler_frame_refl].
  unfold bind at 1.
  pose proof (element_expression_frame (py_expr element) (subs element) sd g) as Hexpr.
  destruct (element_expression _ _ sd g) as [[e|err] g1]; [|exact Hexpr].
  cbn [snd] in Hexpr. unfold bind at 1.
  pose proof (subs_decoration_frame (kind element) (subs element) sd g1) as Hdec.
  destruct (subs_decoration _ _ sd g1) as [[dec|err] g2]; cbn [snd] in Hdec;
    [|by eapply assembler_frame_trans].
  assert (assembler_frame g g2) as Hframe by by eapply assembler_frame_trans.
  unfold bind, lift, ret, index.
  repeat case_bool_decide; destruct (py_expr element !! 0); exact Hframe.
Qed.

Lemma build_elements_keeps `{Externals} (elements : list merged_element)
    (sd : subscript_dict) (g : globals) :
  assembler_frame g (build_elements elements sd g).2.
Proof.
  revert g. induction elements as [|element rest IH]; intros g.
  { apply assembler_frame_refl. }
  cbn [build_elements]. unfold bind at 1.
  pose proof (build_element_keeps element sd g) as Hone.
  destruct (build_element element sd g) as [[f|err] g1]; [|exact Hone].
  cbn [snd] in Hone. unfold bind at 1.
  pose proof (IH g1) as Hrest.
  destruct (build_elements rest sd g1) as [[fs|err] g2]; cbn [snd] in *;
    by eapply assembler_frame_trans.
Qed.

(** X1: whether they return or raise, [build_element] and the list
    comprehension over it leave the name registry, the warnings, the module
    flags for numpy and xarray and the sets of functions and external
    objects as they are; they only add [rearrange] and [xrmerge] to the
    utilities and may switch the [subs] flag on, never off. *)
Theorem assembler_keeps_registries `{Externals} (sd : subscript_dict) (g : globals) :
  (∀ element : merged_element, assembler_frame g (build_element element sd g).2)
  ∧ (∀ elements : list merged_element,
       assembler_frame g (build_elements elements sd g).2).
Proof.
  split.
  - intros element. apply build_element_keeps.
  - intros elements. apply build_elements_keeps.
Qed.

(** ** The model assembler, continued *)

(** X2: a build that returns has emptied the name registry and the import
    registry and kept the warnings; it hands the text back when the file
    name is [return] and writes it to the file otherwise. *)
Theorem build_success_resets `{Externals} (element_list : list element)
    (sd : subscript_dict) (namespace : list (string * string)) (outfile_name : string)
    (g g' : globals) (out : build_output) :
  build element_list sd namespace outfile_name g = (Ok out, g') →
  build_names g' = ∅
  ∧ import_modules g' = empty_imports
  ∧ warnings g' = warnings g
  ∧ ∃ text : string,
      out = if bool_decide (outfile_name = "return") then Returned text
            else Written outfile_name text.
Proof.
  unfold build. unfold bind at 1.
  pose proof (build_elements_keeps (merge_partial_elements element_list) sd g) as Hkeep.
  destruct (build_elements _ sd g) as [[funcs|err] g1]; [|done].
  destruct Hkeep as (_ & Hwarn & _). cbn [snd] in Hwarn.
  unfold bind, get, lift, reset_registries, modify, ret.
  destruct (black_format _) as [text|err]; [|done].
  case_bool_decide.
  - intros [= <- <-]; cbn; repeat split; try done; by exists text.
  - destruct (write_file _ _) as [[]|err]; [|done].
    intros [= <- <-]; cbn; repeat split; try done; by exists text.
Qed.

(** X3: what a build that raises leaves behind.  When the exception
    comes from an element or from the formatter, nothing has been reset:
    the name registry, the warnings, the functions and the external objects
    registered are what they were when it was called, and the utilities and
    the [subs] flag keep whatever the elements assembled before the failure
    added.  The only other exception is the one of writing the file, which
    comes after the reset: both registries are then empty.  A build that is
    asked to return the text is always in the first case. *)
Theorem build_failure_registries `{Externals} (element_list : list element)
    (sd : subscript_dict) (namespace : list (string * string)) (outfile_name : string)
    (g g' : globals) (err : error) :
  build element_list sd namespace outfile_name g = (Err err, g') →
  (assembler_frame g g'
   ∧ (build_elements (merge_partial_elements element_list) sd g = (Err err, g')
      ∨ ∃ text : string, black_format text = Err err))
  ∨ (outfile_name ≠ "return"
     ∧ build_names g' = ∅
     ∧ import_modules g' = empty_imports
     ∧ warnings g' = warnings g
     ∧ ∃ text : string, write_file outfile_name text = Err err).
Proof.
  unfold build. unfold bind at 1.
  pose proof (build_elements_keeps (merge_partial_elements element_list) sd g) as Hkeep.
  destruct (build_elements _ sd g) as [[funcs|err1] g1]; cbn [snd] in Hkeep.
  - unfold bind, get, lift, reset_registries, modify, ret.
    destruct (black_format _) as [text|err2] eqn:Hblack.
    + case_bool_decide as Hout; [done|].
      destruct (write_file outfile_name text) as [[]|err3] eqn:Hwrite; [done|].
      intros [= <- <-]. right. cbn. destruct Hkeep as (_ & Hwarn & _).
      repeat split; try done. by exists text.
    + intros [= <- <-]. left. split; [done|]. right. eauto.
  - intros [= <- <-]. left. split; [done|]. by left.
Qed.

(** ** From the merger to the assembler *)

Lemma build_elements_all `{Externals} (elements : list merged_element)
    (sd : subscript_dict) (g : globals) :
  Forall (λ m, ∃ p, Spec.policy_of (kind m) = Some p
                    ∧ py_expr m ≠ []
                    ∧ length (py_expr m) = length (subs m)) elements →
  ∃ (funcs : list string) (g' : globals),
    build_elements elements sd g = (Ok funcs, g') ∧ length funcs = length elements.
Proof.
  intros Hall. revert g.
  induction Hall as [|m ms (p & Hp & Hne & Hlen) _ IH]; intros g.
  { by exists [], g. }
  destruct (build_element_ok m sd g p Hp Hne Hlen) as (text & g1 & Hone & _).
  destruct (IH g1) as (funcs & g' & Hrest & Hlength).
  exists (text :: funcs), g'. cbn [build_elements].
  rewrite (bind_ok _ _ _ _ _ Hone), (bind_ok _ _ _ _ _ Hrest).
  split; [done|]. cbn. by rewrite Hlength.
Qed.

Lemma head_fmap_elem {A B} (f : A → B) (l : list A) (b : B) :
  head (f <$> l) = Some b → ∃ a, a ∈ l ∧ f a = b.
Proof.
  destruct l as [|a l]; [done|]. cbn. intros [= <-]. exists a. split; [left|done].
Qed.

Lemma merged_elements_well_formed (element_list : list element) :
  Forall (λ e, py_expr e ≠ "None" → is_Some (Spec.policy_of (kind e))) element_list →
  Forall (λ m, ∃ p, Spec.policy_of (kind m) = Some p
                    ∧ py_expr m ≠ []
                    ∧ length (py_expr m) = length (subs m))
    (merge_partial_elements element_list).
Proof.
  intros Hkinds.
  destruct (merge_invariant element_list) as (_ & Hentries & _).
  unfold merge_partial_elements. apply Forall_fmap.
  eapply Forall_impl; [exact Hentries|].
  intros [k m] [_ (Hne & Hexpr & Hsubs & _ & _ & _ & _ & _ & Hkind & _)]. cbn in *.
  apply head_fmap_elem in Hkind as (e & Hin & Hk).
  apply list_elem_of_filter in Hin as [[Hkept _] Hin].
  eapply Forall_forall in Hkinds as Hpolicy; [|exact Hin].
  destruct Hpolicy as [p Hp].
  { unfold Spec.dropped in Hkept. by apply bool_decide_eq_false_1 in Hkept. }
  exists p. rewrite <- Hk. split; [done|]. rewrite Hexpr, Hsubs. split.
  - intros Hnil. by apply fmap_nil_inv in Hnil.
  - by rewrite !length_fmap.
Qed.

(** X4: when every fragment that is not dropped has one of the eight
    kinds, the elements the merger returns are all assembled, one text for
    each, whatever the fragments hold otherwise; the only exceptions the
    build can then raise are the formatter's and, when the text goes to a
    file, the one of writing it. *)
Theorem merged_elements_assemble `{Externals} (element_list : list element)
    (sd : subscript_dict) (namespace : list (string * string)) (outfile_name : string)
    (g : globals) :
  Forall (λ e, py_expr e ≠ "None" → is_Some (Spec.policy_of (kind e))) element_list →
  (∃ (funcs : list string) (g' : globals),
     build_elements (merge_partial_elements element_list) sd g = (Ok funcs, g')
     ∧ length funcs = length (merge_partial_elements element_list))
  ∧ ∀ (err : error) (g' : globals),
      build element_list sd namespace outfile_name g = (Err err, g') →
      (∃ text : string, black_format text = Err err)
      ∨ (outfile_name ≠ "return"
         ∧ ∃ text : string, write_file outfile_name text = Err err).
Proof.
  intros Hkinds.
  destruct (build_elements_all (merge_partial_elements element_list) sd g)
    as (funcs & g1 & Hrun & Hlength).
  { by apply merged_elements_well_formed. }
  split; [by exists funcs, g1|].
  intros err g'. unfold build. rewrite (bind_ok _ _ _ _ _ Hrun).
  unfold bind, get, lift, reset_registries, modify, ret.
  destruct (black_format _) as [text|err2] eqn:Hblack.
  - case_bool_decide as Hout; [done|].
    destruct (write_file outfile_name text) as [[]|err3] eqn:Hwrite; [done|].
    intros [= <- _]. right. split; [done|]. by exists text.
  - intros [= <- _]. left. eauto.
Qed.

(** ** The element merger, continued *)

Lemma merge_step_dropped (outs : list (string * merged_element)) (e : element) :
  py_expr e = "None" → merge_step outs e = outs.
Proof. intros Hnone. unfold merge_step. by rewrite bool_decide_eq_true_2. Qed.

Lemma foldl_merge_filter (acc : list (string * merged_element)) (l : list element) :
  foldl merge_step acc (filter (λ e, py_expr e ≠ "None") l) = foldl merge_step acc l.
Proof.
  revert acc. induction l as [|e l IH]; intros acc; [done|].
  rewrite filter_cons. case_decide as Hkept; cbn [foldl].
  - apply IH.
  - rewrite merge_step_dropped; [apply IH|].
    by destruct (decide (py_expr e = "None")).
Qed.

(** X5: fragments whose expression is [None] leave no trace: the merger
    returns the same elements with them and without them, so a list of
    such fragments alone merges to nothing. *)
Theorem dropped_fragments_leave_no_trace (element_list : list element) :
  merge_partial_elements element_list
    = merge_partial_elements (filter (λ e, py_expr e ≠ "None") element_list)
  ∧ (Forall (λ e, py_expr e = "None") element_list →
     merge_partial_elements element_list = []).
Proof.
  unfold merge_partial_elements. split.
  - by rewrite foldl_merge_filter.
  - intros Hall. rewrite <- foldl_merge_filter.
    assert (filter (λ e, py_expr e ≠ "None") element_list = []) as ->; [|done].
    induction Hall as [|e l Hnone _ IH]; [done|].
    rewrite filter_cons. by case_decide.
Qed.

Lemma update_entry_keys (outs outs' : list (string * merged_element)) (n : string)
    (e : element) :
  update_entry outs n e = Some outs' → outs'.*1 = outs.*1 ∧ n ∈ outs.*1.
Proof.
  revert outs'. induction outs as [|[k o] outs IH]; intros outs'; [done|].
  cbn [update_entry]. case_bool_decide as Hk.
  - intros [= <-]. cbn. split; [done|]. subst. left.
  - destruct (update_entry outs n e) as [r|]; [|done].
    intros [= <-]. destruct (IH r eq_refl) as [Hkeys Hin].
    cbn. rewrite Hkeys. split; [done|]. by right.
Qed.

Lemma first_seen_ext (s1 s2 names : list string) :
  (∀ x, x ∈ s1 ↔ x ∈ s2) → first_seen s1 names = first_seen s2 names.
Proof.
  revert s1 s2. induction names as [|n names IH]; intros s1 s2 Hsame; [done|].
  cbn [first_seen].
  rewrite (bool_decide_ext (n ∈ s1) (n ∈ s2)) by apply Hsame.
  case_bool_decide; [by apply IH|].
  f_equal. apply IH. intros x. rewrite !elem_of_cons. by rewrite Hsame.
Qed.

Lemma foldl_merge_keys (acc : list (string * merged_element)) (l : list element) :
  (foldl merge_step acc l).*1
    = acc.*1 ++ first_seen acc.*1 (py_name <$> filter (λ e, py_expr e ≠ "None") l).
Proof.
  revert acc. induction l as [|e l IH]; intros acc.
  { cbn. by rewrite app_nil_r. }
  cbn [foldl]. rewrite IH, filter_cons. unfold merge_step.
  destruct (bool_decide_reflect (py_expr e = "None")) as [Hnone|Hkept].
  { by rewrite decide_False by by intros ?. }
  rewrite decide_True by done. cbn [fmap list_fmap first_seen].
  destruct (update_entry acc (py_name e) e) as [acc'|] eqn:Hupdate.
  - apply update_entry_keys in Hupdate as [-> Hin].
    by rewrite bool_decide_eq_true_2.
  - assert (py_name e ∉ acc.*1) as Hnew.
    { intros Hin. destruct (decide (NoDup acc.*1)) as [Hdup|Hdup].
      - by rewrite update_entry_present in Hupdate.
      - clear -Hin Hupdate.
        induction acc as [|[k o] acc IHacc]; [by apply elem_of_nil in Hin|].
        cbn in *. case_bool_decide; [done|].
        apply elem_of_cons in Hin as [?|Hin]; [done|].
        destruct (update_entry acc (py_name e) e); [done|]. by apply IHacc. }
    rewrite bool_decide_eq_false_2 by done.
    rewrite fmap_app. cbn. rewrite <- app_assoc. cbn. do 2 f_equal.
    apply first_seen_ext. intros x.
    rewrite elem_of_app, !elem_of_cons, elem_of_nil. tauto.
Qed.

(** X6: the merged elements come in the order in which their names are
    first seen among the fragments that are not dropped. *)
Theorem merged_in_first_seen_order (element_list : list element) :
  py_name <$> merge_partial_elements element_list
    = first_seen [] (py_name <$> filter (λ e, py_expr e ≠ "None") element_list).
Proof.
  destruct (merge_invariant element_list) as (_ & Hentries & _).
  unfold merge_partial_elements.
  transitivity ((foldl merge_step [] element_list).*1).
  - rewrite <- list_fmap_compose. apply list_fmap_ext.
    intros i km Hi. cbn. by eapply Forall_lookup_1 in Hentries as [Hk _].
  - by rewrite foldl_merge_keys.
Qed.

(** ** The builders of stateful objects *)

(** X7: [add_n_delay] returns the reference [_delay_<id>()]; without
    subscripts it makes the stateful element alone, built on the four
    operand expressions; with subscripts it makes a [setup] initializer and
    two [component] providers, for the delay time and for the input, ahead
    of the stateful element, whose expression calls the three by their
    names and still holds the order as it was passed. *)
Theorem add_n_delay_elements
    (identifier delay_input delay_time initial_value order : string)
    (subscripts : list string) (sd : subscript_dict) (g : globals) :
  ∃ (new_structure : list element) (g' : globals),
    add_n_delay identifier delay_input delay_time initial_value order subscripts sd g
      = (Ok ("_delay_" +:+ identifier +:+ "()", new_structure), g')
    ∧ match subscripts with
      | [] =>
          ∃ stateful, new_structure = [stateful]
            ∧ kind stateful = "stateful"
            ∧ py_expr stateful
              = "Delay(lambda: " +:+ delay_input +:+ ", lambda: " +:+ delay_time
                  +:+ ",lambda: " +:+ initial_value +:+ ", lambda: " +:+ order +:+ ")"
      | _ :: _ =>
          ∃ init deltime delinput stateful,
            new_structure = [init; deltime; delinput; stateful]
            ∧ kind <$> new_structure = ["setup"; "component"; "component"; "stateful"]
            ∧ py_expr <$> [init; deltime; delinput]
              = [initial_value; delay_time; delay_input]
            ∧ subs <$> [init; deltime; delinput]
              = replicate 3 (SubsList subscripts)
            ∧ py_name init = "_init_" +:+ identifier
            ∧ py_name deltime = "_deltime_" +:+ identifier
            ∧ py_name delinput = "_delinput_" +:+ identifier
            ∧ py_expr stateful
              = "Delay(lambda: " +:+ py_name delinput +:+ "(),lambda: "
                  +:+ py_name deltime +:+ "(), lambda: " +:+ py_name init
                  +:+ "(),lambda: " +:+ order +:+ ")"
      end.
Proof.
  destruct subscripts as [|s subs'].
  - eexists _, _. split; [reflexivity|].
    eexists. repeat split; reflexivity.
  - eexists _, _. split; [reflexivity|].
    eexists _, _, _, _. repeat split; reflexivity.
Qed.

(** X9: every builder of a stateful object returns, whatever strings it
    is given: the reference is the name of the last new element followed by
    [()]; that element is of kind [stateful], with the empty string for its
    subscripts and no arguments; it is alone unless the call is a stock or
    a delay with subscripts, so smooths and trends get no helpers even with
    subscripts; the helpers are implicit [setup] and [component] elements
    that carry the subscripts; and of the registries only the set of
    functions changes, by the name of the class used. *)
Theorem stateful_builders_shape `{Externals} (sd : subscript_dict) (c : construct)
    (g : globals) :
  ∃ (helpers : list element) (stateful : element) (g' : globals),
    construct_run sd c g = (Ok (py_name stateful +:+ "()", helpers ++ [stateful]), g')
    ∧ kind stateful = "stateful"
    ∧ subs stateful = SubsStr ""
    ∧ arguments stateful = ""
    ∧ length helpers = helper_count c
    ∧ Forall (λ h, kind h ∈ ["setup"; "component"]
                   ∧ real_name h = "Implicit"
                   ∧ ∃ s l, subs h = SubsList (s :: l)) helpers
    ∧ build_names g' = build_names g
    ∧ warnings g' = warnings g
    ∧ import_modules g'
      = ImportModules (numpy (import_modules g)) (xarray (import_modules g))
          (subs_flag (import_modules g))
          ({[constructor_name c]} ∪ functions (import_modules g))
          (external (import_modules g)) (utils (import_modules g)).
Proof.
  destruct c as [i e ic s|i di dt iv o s|i si st iv o s|i ti a it s|ii|m f ns vs];
    cbn [construct_run constructor_name helper_count].
  - destruct s as [|s0 s].
    + exists []. eexists _, _. split; [reflexivity|]. by repeat split.
    + eexists [_; _], _, _. split; [reflexivity|]. repeat split; try done.
      repeat constructor; cbn; eauto; set_solver.
  - destruct s as [|s0 s].
    + exists []. eexists _, _. split; [reflexivity|]. by repeat split.
    + eexists [_; _; _], _, _. split; [reflexivity|]. repeat split; try done.
      repeat constructor; cbn; eauto; set_solver.
  - exists []. eexists _, _. split; [reflexivity|]. by repeat split.
  - exists []. eexists _, _. split; [reflexivity|]. by repeat split.
  - exists []. eexists _, _. split; [reflexivity|]. by repeat split.
  - exists []. eexists _, _. split; [reflexivity|]. by repeat split.
Qed.

Lemma zip_with_surplus {A B C} (f : A → B → C) (xs : list A) (ys extra : list B) :
  length xs ≤ length ys → zip_with f xs (ys ++ extra) = zip_with f xs ys.
Proof.
  revert ys. induction xs as [|x xs IH]; intros ys Hlen; [done|].
  destruct ys as [|y ys]; cbn in *; [lia|]. f_equal. apply IH. lia.
Qed.

(** X10: a macro is bound argument by argument as far as names and values
    pair up: values beyond the last name are not passed to the macro, yet
    they still go into the name of the object. *)
Theorem add_macro_surplus_values `{Externals} (macro_name filename : string)
    (arg_names arg_vals extra : list string) (g : globals) :
  length arg_names ≤ length arg_vals →
  ∃ (e e' : element) (g1 g2 : globals),
    add_macro macro_name filename arg_names (arg_vals ++ extra) g
      = (Ok (py_name e +:+ "()", [e]), g1)
    ∧ add_macro macro_name filename arg_names arg_vals g
      = (Ok (py_name e' +:+ "()", [e']), g2)
    ∧ py_expr e = py_expr e'
    ∧ py_name e
      = "_macro_" +:+ macro_name +:+ "_"
          +:+ Str.join "_" (make_python_identifier <$> (arg_vals ++ extra))
    ∧ py_name e'
      = "_macro_" +:+ macro_name +:+ "_"
          +:+ Str.join "_" (make_python_identifier <$> arg_vals).
Proof.
  intros Hlen. eexists _, _, _, _.
  split; [reflexivity|]. split; [reflexivity|]. split; [|by split].
  cbn. unfold macro_bindings. by rewrite zip_with_surplus.
Qed.

Lemma merged_entry_of_name (l : list element) (n : string) :
  Spec.contributing n l ≠ [] →
  ∃ m, m ∈ merge_partial_elements l ∧ py_name m = n ∧ Spec.merged_from l m.
Proof.
  intros Hne. destruct (merge_invariant l) as (_ & Hentries & Hkeys).
  apply Hkeys in Hne. apply list_elem_of_fmap in Hne as ([k m] & -> & Hin).
  eapply Forall_forall in Hentries as [Hname Hm]; [|exact Hin].
  exists m. split; [|done]. unfold merge_partial_elements.
  apply list_elem_of_fmap. by exists (k, m).
Qed.

(** X8: a stock and a delay built on the same identifier, both with
    subscripts, name their initializers alike, [_init_<id>]; the merger
    then makes one element of the two, holding the stock's initial
    condition and the delay's initial value as its two fragments. *)
Theorem implicit_initializers_collide
    (identifier expression initial_condition : string)
    (delay_input delay_time initial_value order : string)
    (s1 : string) (subs1 : list string) (s2 : string) (subs2 : list string)
    (sd : subscript_dict) (g : globals) :
  initial_condition ≠ "None" →
  initial_value ≠ "None" →
  ∃ (stock delay : string * list element) (g1 g2 : globals),
    add_stock identifier expression initial_condition (s1 :: subs1) sd g
      = (Ok stock, g1)
    ∧ add_n_delay identifier delay_input delay_time initial_value order
        (s2 :: subs2) sd g1 = (Ok delay, g2)
    ∧ ∃ m : merged_element,
        m ∈ merge_partial_elements (stock.2 ++ delay.2)
        ∧ py_name m = "_init_" +:+ identifier
        ∧ py_expr m = [initial_condition; initial_value]
        ∧ subs m = [SubsList (s1 :: subs1); SubsList (s2 :: subs2)]
        ∧ kind m = "setup".
Proof.
  intros Hic Hiv. eexists _, _, _, _.
  split; [reflexivity|]. split; [reflexivity|]. cbn [snd].
  set (l := (_ ++ _ : list element)).
  assert (Spec.contributing ("_init_" +:+ identifier) l
          = [ new_element ("_init_" +:+ identifier) "Implicit" "setup" initial_condition
                (SubsList (s1 :: subs1))
                ("Provides initial conditions for " +:+ identifier +:+ " function")
                ("See docs for " +:+ identifier) "";
              new_element ("_init_" +:+ identifier) "Implicit" "setup" initial_value
                (SubsList (s2 :: subs2))
                ("Provides initial conditions for " +:+ identifier +:+ " function")
                ("See docs for " +:+ identifier) "" ]) as Hfs.
  { unfold Spec.contributing, l.
    rewrite !bool_decide_eq_false_2 by done. cbn [app snd].
    repeat (rewrite filter_cons; cbn [py_name new_element py_expr];
            unfold Spec.dropped; cbn [py_name new_element py_expr];
            let Hd := fresh "Hd" in
            case_decide as Hd;
            [ first [ destruct Hd as [_ Hd]; vm_compute in Hd; discriminate Hd
                    | clear Hd ]
            | first [ exfalso; apply Hd; split; [by apply bool_decide_eq_false_2 | done]
                    | clear Hd ] ]).
    done. }
  destruct (merged_entry_of_name l ("_init_" +:+ identifier)) as (m & Hin & Hname & Hm).
  { by rewrite Hfs. }
  exists m. split; [exact Hin|]. split; [exact Hname|].
  destruct Hm as (_ & Hexpr & Hsubs & _ & _ & _ & _ & _ & Hkind & _).
  rewrite Hname, Hfs in *. cbn in *. by injection Hkind as <-.
Qed.

(** ** The function-call builder, continued *)

Lemma walk_parameters_broken (user_arguments arguments : list string)
    (params : list parameter) :
  walk_parameters user_arguments (Broken arguments) params = Ok (Broken arguments).
Proof. induction params as [|p params IH]; [done|]. cbn. apply IH. Qed.

(** X11: an optional parameter met after the user arguments have run out
    ends the walk there: the call is made of the arguments collected so
    far, and the parameters behind it are not looked at, whether they are
    optional or not and whatever their types. *)
Theorem optional_parameter_ends_the_walk (d : function_dict)
    (user_arguments args : list string) (g g1 g2 : globals)
    (pre post : list parameter) (p : parameter) (argument_idx : nat)
    (arguments : list string) :
  effective_arguments d user_arguments g = (Ok args, g1) →
  import_module d g1 = (Ok tt, g2) →
  parameters d = Some (pre ++ p :: post) →
  walk_parameters args (Running 0 []) pre = Ok (Running argument_idx arguments) →
  length args ≤ argument_idx →
  default false (optional p) = true →
  build_function_call (FuncDict d) user_arguments g
    = (Ok (name d +:+ "(" +:+ Str.join ", " arguments +:+ ")"), g2).
Proof.
  intros Hargs Himport Hparams Hpre Hout Hopt.
  unfold build_function_call.
  rewrite (bind_ok _ _ _ _ _ Hargs), (bind_ok _ _ _ _ _ Himport), Hparams.
  rewrite walk_parameters_app, Hpre. cbn [result_bind walk_parameters parameter_step].
  rewrite Hopt, andb_true_r.
  assert ((length args <=? argument_idx) = true) as -> by by apply Nat.leb_le.
  cbn [result_bind]. by rewrite walk_parameters_broken.
Qed.



(** X13: a descriptor for [not_implemented_function] without parameters
    gives a call of that function on the quoted original name followed by
    the user arguments, and adds one warning that names the original
    function; when the descriptor has no original name the builder raises
    the key error and changes nothing. *)
Theorem not_implemented_function_call (d : function_dict)
    (user_arguments : list string) (g : globals) :
  name d = "not_implemented_function" →
  module d = None →
  parameters d = None →
  match original_name d with
  | Some o =>
      ∃ msg : string,
        build_function_call (FuncDict d) user_arguments g
          = (Ok ("not_implemented_function("
                 +:+ Str.join "," (("'" +:+ o +:+ "'") :: user_arguments) +:+ ")"),
             Globals (build_names g) (import_modules g) (warnings g ++ [msg]))
        ∧ Str.contains o msg = true
  | None =>
      build_function_call (FuncDict d) user_arguments g
        = (Err (KeyError "original_name"), g)
  end.
Proof.
  intros Hname Hmod Hparams.
  unfold build_function_call, effective_arguments, import_module.
  rewrite bool_decide_eq_true_2 by done. rewrite Hmod, Hparams, Hname.
  destruct (original_name d) as [o|]; [|done].
  eexists. split; [reflexivity|].
  do 3 apply StrFacts.contains_app_r.
  apply StrFacts.contains_here, StrFacts.startswith_app.
Qed.

Lemma render_parameter_error (t a : string) (err : error) :
  render_parameter t a = Err err →
  err = KeyError t ∧ (t ∉ ["expression"; "lambda"; "time"; "scope"]).
Proof.
  unfold render_parameter. repeat case_bool_decide; try done.
  intros [= <-]. split; [done|]. rewrite !elem_of_cons, elem_of_nil. tauto.
Qed.

Lemma walk_parameters_error (user_arguments : list string) (st : loop_state)
    (params : list parameter) (err : error) :
  walk_parameters user_arguments st params = Err err →
  err = IndexError
  ∨ ∃ (p : parameter) (t : string),
      p ∈ params ∧ type p = Some t
      ∧ (t ∉ ["expression"; "lambda"; "time"; "scope"]) ∧ err = KeyError t.
Proof.
  revert st. induction params as [|p params IH]; intros st; [done|].
  cbn [walk_parameters].
  destruct (parameter_step user_arguments st p) as [st'|err1] eqn:Hstep.
  - cbn [result_bind]. intros Hrest. apply IH in Hrest as [?|(q & t & ? & ? & ? & ?)];
      [by left|].
    right. exists q, t. repeat split; try done. by right.
  - cbn [result_bind]. intros [= <-]. revert Hstep. unfold parameter_step.
    destruct st as [idx acc|acc]; [|done].
    destruct (_ && _); [done|]. unfold index.
    destruct (user_arguments !! idx) as [a|]; [|intros [= <-]; by left].
    cbn [result_bind].
    destruct (render_parameter _ a) as [r|err2] eqn:Hrender; [done|].
    intros [= <-]. apply render_parameter_error in Hrender as [-> Ht].
    right. exists p. destruct (type p) as [t|] eqn:Htype; cbn in *.
    + exists t. repeat split; try done. left.
    + exfalso. apply Ht. left.
Qed.

Lemma import_module_error (d : function_dict) (g g' : globals) (err : error) :
  import_module d g = (Err err, g') →
  g' = g
  ∧ ∃ m : string,
      module d = Some m
      ∧ (m ∉ ["numpy"; "xarray"; "functions"; "external"; "utils"])
      ∧ (if bool_decide (m = "subs")
         then err = AttributeError "'bool' object has no attribute 'add'"
         else err = KeyError m).
Proof.
  unfold import_module. destruct (module d) as [m|]; [|done].
  repeat case_bool_decide; try done; intros [= <- <-];
    (split; [done|]); exists m; rewrite ?bool_decide_eq_true_2, ?bool_decide_eq_false_2
      by done; (split; [done|]); (split; [|done]);
    rewrite !elem_of_cons, elem_of_nil; subst; intros Hm;
    repeat destruct Hm as [Hm|Hm]; done.
Qed.

(** X15: the exceptions of the function-call builder.  A descriptor that
    is a plain string never raises.  A dictionary raises in four cases
    only, tried in this order: the key error for a
    [not_implemented_function] without original name; for a module entry
    that is none of numpy, xarray, functions, external and utils, the key
    error on that entry, or the attribute error when it is [subs]; the
    index error of a parameter that finds no user argument; and the key
    error on a parameter type that is none of the four. *)
Theorem function_call_errors (fd : function_def) (user_arguments : list string)
    (g g' : globals) (err : error) :
  build_function_call fd user_arguments g = (Err err, g') →
  ∃ d : function_dict,
    fd = FuncDict d
    ∧ ((err = KeyError "original_name"
        ∧ name d = "not_implemented_function" ∧ original_name d = None ∧ g' = g)
       ∨ (∃ m : string,
            module d = Some m
            ∧ (m ∉ ["numpy"; "xarray"; "functions"; "external"; "utils"])
            ∧ (if bool_decide (m = "subs")
               then err = AttributeError "'bool' object has no attribute 'add'"
               else err = KeyError m))
       ∨ (∃ params : list parameter,
            parameters d = Some params
            ∧ (err = IndexError
               ∨ ∃ (p : parameter) (t : string),
                   p ∈ params ∧ type p = Some t
                   ∧ (t ∉ ["expression"; "lambda"; "time"; "scope"])
                   ∧ err = KeyError t))).
Proof.
  destruct fd as [f|d]; [done|]. intros Hrun. exists d. split; [done|].
  revert Hrun. unfold build_function_call. unfold bind at 1.
  destruct (effective_arguments d user_arguments g) as [[args|err1] g1] eqn:Hargs.
  - unfold bind at 1.
    destruct (import_module d g1) as [[[]|err2] g2] eqn:Himport.
    + destruct (parameters d) as [params|]; [|done].
      unfold bind, lift, ret.
      destruct (walk_parameters args (Running 0 []) params) as [st|err3] eqn:Hwalk; [done|].
      intros [= <- _]. right. right. exists params. split; [done|].
      by apply walk_parameters_error in Hwalk.
    + intros [= <- _]. right. left.
      apply import_module_error in Himport as (_ & m & ? & ? & ?). by exists m.
  - intros [= <- <-]. left. revert Hargs. unfold effective_arguments.
    case_bool_decide; [|done].
    destruct (original_name d); [done|]. by intros [= <- <-].
Qed.

Lemma import_module_again (d : function_dict) (g g1 : globals) :
  import_module d g = (Ok tt, g1) →
  ∀ g2 : globals,
    import_modules g2 = import_modules g1 →
    ∃ g3 : globals,
      import_module d g2 = (Ok tt, g3)
      ∧ import_modules g3 = import_modules g1
      ∧ build_names g3 = build_names g2
      ∧ warnings g3 = warnings g2.
Proof.
  unfold import_module. destruct (module d) as [m|].
  - repeat case_bool_decide; try done; intros [= <-] g2 Hsame;
      eexists; (split; [reflexivity|]); cbn in *; rewrite Hsame;
      (split; [|done]); f_equal; set_solver.
  - intros [= <-] g2 Hsame. by exists g2.
Qed.

(** X14: requiring an import twice is requiring it once: when a call has
    been assembled, assembling the same call again gives the same text and
    leaves the import registry and the name registry as the first time
    left them. *)
Theorem function_call_imports_once (fd : function_def) (user_arguments : list string)
    (g g1 : globals) (call : string) :
  build_function_call fd user_arguments g = (Ok call, g1) →
  ∃ g2 : globals,
    build_function_call fd user_arguments g1 = (Ok call, g2)
    ∧ import_modules g2 = import_modules g1
    ∧ build_names g2 = build_names g1.
Proof.
  destruct fd as [f|d].
  { intros [= <- <-]. by exists g. }
  unfold build_function_call. unfold bind at 1.
  destruct (effective_arguments d user_arguments g) as [[args|err1] ga] eqn:Hargs; [|done].
  unfold bind at 1.
  destruct (import_module d ga) as [[[]|err2] gb] eqn:Himport; [|done].
  intros Hrest.
  assert (g1 = gb) as ->.
  { revert Hrest. destruct (parameters d); unfold bind, lift, ret; [|by intros [= _ <-]].
    destruct (walk_parameters args _ _); by intros [= _ <-]. }
  assert (∃ gc, effective_arguments d user_arguments gb = (Ok args, gc)
                ∧ import_modules gc = import_modules gb
                ∧ build_names gc = build_names gb) as (gc & Hargs' & Himp & Hnames).
  { revert Hargs. unfold effective_arguments. case_bool_decide.
    - destruct (original_name d); [|done].
      unfold bind, warn, modify, ret. intros [= <- _]. by eexists.
    - intros [= <- _]. by eexists. }
  destruct (import_module_again d ga gb Himport gc Himp) as (gd & Himport' & Himp' & Hn & _).
  exists gd. unfold bind at 1. rewrite Hargs'. unfold bind at 1. rewrite Himport'.
  split; [|split; [done|congruence]].
  revert Hrest. destruct (parameters d); unfold bind, lift, ret; [|by intros [= <-]].
  destruct (walk_parameters args _ _); [|done]. by intros [= <-].
Qed.

(** ** The statement of an object *)

Lemma element_expression_ok `{Externals} (element : merged_element)
    (sd : subscript_dict) (g : globals) :
  py_expr element ≠ [] →
  length (py_expr element) = length (subs element) →
  ∃ (e : string) (g1 : globals),
    element_expression (py_expr element) (subs element) sd g = (Ok e, g1).
Proof.
  intros Hne Hlen.
  pose proof (element_expression_spec (py_expr element) (subs element) sd g Hlen) as Hspec.
  revert Hspec. destruct (1 <? _)%nat.
  - intros (g' & -> & _). by eexists _, _.
  - intros ->. destruct (py_expr element); [done|]. by eexists _, _.
Qed.

(** X17: the statement written for an object.  For a [stateful] or
    [external] element it is the line [name = expression], taken from the
    first fragment whatever fragments follow; for an [external_add] element
    it is the first fragment put behind the part of the name in front of
    [ADD], when there is such a part.  Either comes between two line feeds, at the margin, when the
    name and the fragment are one-line texts and the name does not start
    with a blank. *)
Theorem object_statement_text `{Externals} (element : merged_element)
    (sd : subscript_dict) (g : globals) (first : string) (rest : list string) :
  py_expr element = first :: rest →
  length (py_expr element) = length (subs element) →
  one_line (py_name element) →
  one_line first →
  starts_unindented (py_name element) →
  (kind element ∈ ["stateful"; "external"] →
   ∃ g' : globals,
     build_element element sd g
       = (Ok (Str.nl +:+ py_name element +:+ " = " +:+ first +:+ Str.nl), g'))
  ∧ (kind element = "external_add" →
     ∀ c suffix : string,
       py_name element = c +:+ "ADD_" +:+ suffix →
       Str.contains "ADD" c = false →
       c ≠ "" →
       ∃ g' : globals,
         build_element element sd g = (Ok (Str.nl +:+ c +:+ first +:+ Str.nl), g')).
Proof.
  intros Hexprs Hlen Hname Hfirst Hstart.
  destruct (element_expression_ok element sd g) as (e & g1 & Hexpr);
    [by rewrite Hexprs | done |].
  destruct (subs_decoration_ok (kind element) (subs element) sd g1)
    as (dec & g2 & Hdec & _).
  { intros Hnil. by rewrite Hnil, Hexprs in Hlen. }
  split.
  - intros Hkind. exists g2.
    destruct (Spec.policy_of (kind element)) as [p|] eqn:Hp.
    2:{ apply elem_of_cons in Hkind as [Hk|Hk]; [by rewrite Hk in Hp|].
        apply list_elem_of_singleton in Hk. by rewrite Hk in Hp. }
    rewrite (build_element_run element sd g g1 g2 (Spec.decorator p) e first dec);
      [|by rewrite cache_type_of_policy, Hp|done|done|by rewrite Hexprs].
    rewrite bool_decide_eq_true_2 by done. unfold assignment_text.
    f_equal. f_equal.
    assert (∀ t, py_name element +:+ " = " +:+ first +:+ t
                 = (py_name element +:+ " = " +:+ first) +:+ t) as Hgroup
      by (intros; by rewrite !StrFacts.app_assoc).
    rewrite !Hgroup. apply dedent_statement.
    + by repeat apply one_line_app.
    + by apply starts_unindented_app.
  - intros Hkind c suffix Hsplit Hclean Hc0. exists g2.
    rewrite (build_element_run element sd g g1 g2 "" e first dec);
      [|by rewrite Hkind|done|done|by rewrite Hexprs].
    rewrite Hkind. rewrite bool_decide_eq_false_2 by set_solver.
    rewrite bool_decide_eq_true_2 by done.
    rewrite Hsplit, StrFacts.split_head_ADD by done. unfold add_statement_text.
    assert (one_line c ∧ starts_unindented c) as [Hc Hcs].
    { rewrite Hsplit in Hname, Hstart. unfold one_line, Str.nl in *.
      rewrite contains_char_app in Hname. apply orb_false_elim in Hname as [? _].
      split; [done|]. by destruct c. }
    f_equal. f_equal.
    assert (∀ t, c +:+ first +:+ t = (c +:+ first) +:+ t) as Hgroup
      by (intros; by rewrite !StrFacts.app_assoc).
    rewrite !Hgroup. apply dedent_statement.
    + by apply one_line_app.
    + by apply starts_unindented_app.
Qed.

(** ** What a successful [build_element] imports *)

Lemma import_rearrange_imports (g : globals) :
  let g' := (import_utils "rearrange" g).2 in
  subs_flag (import_modules g') = subs_flag (import_modules g)
  ∧ ("xrmerge" ∈ utils (import_modules g') ↔ "xrmerge" ∈ utils (import_modules g)).
Proof.
  cbn. split; [done|]. rewrite elem_of_union, elem_of_singleton.
  split; [intros [Heq|Hin]; [discriminate Heq | exact Hin] | by right].
Qed.

Lemma combine_fragments_imports `{Externals} (sd : subscript_dict) (flags : list bool)
    (i : nat) (fragments : list (string * subs_t)) (py_expr_i : list string)
    (g g' : globals) (r : result (list string)) :
  combine_fragments flags sd i fragments py_expr_i g = (r, g') →
  subs_flag (import_modules g') = subs_flag (import_modules g)
  ∧ ("xrmerge" ∈ utils (import_modules g') ↔ "xrmerge" ∈ utils (import_modules g)).
Proof.
  revert i py_expr_i g.
  induction fragments as [|[e s] rest IH]; intros i acc g.
  { by intros [= _ <-]. }
  cbn [combine_fragments]. unfold bind at 1, lift, index.
  destruct (flags !! i) as [[|]|]; [| apply IH | by intros [= _ <-]].
  unfold bind at 1, lift, index.
  destruct (flags !! (i + 1)) as [[|]|]; [| apply IH | by intros [= _ <-]].
  unfold bind at 1.
  pose proof (import_rearrange_imports g) as Hstep.
  destruct (import_utils "rearrange" g) as [[[]|err] g1] eqn:Himport;
    [|discriminate Himport].
  cbn [snd] in Hstep. destruct Hstep as [Hflag Hutil].
  intros Hrun. apply IH in Hrun as [-> ->]. done.
Qed.

Lemma element_expression_imports `{Externals} (py_exprs : list string)
    (subss : list subs_t) (sd : subscript_dict) (g g' : globals) (e : string) :
  element_expression py_exprs subss sd g = (Ok e, g') →
  subs_flag (import_modules g') = subs_flag (import_modules g)
  ∧ ("xrmerge" ∈ utils (import_modules g')
     ↔ "xrmerge" ∈ utils (import_modules g) ∨ 1 < sum_bools (no_ADD py_exprs)).
Proof.
  unfold element_expression. destruct (1 <? _)%nat eqn:Hmany.
  - apply Nat.ltb_lt in Hmany. unfold bind at 1.
    destruct (combine_fragments _ sd 0 _ [] g) as [[l|err] g1] eqn:Hloop;
      [|discriminate].
    apply combine_fragments_imports in Hloop as [Hflag _].
    unfold bind, ret. cbn. intros [= _ <-]. cbn.
    split; [done|]. split; [by right | set_solver].
  - apply Nat.ltb_ge in Hmany. unfold lift.
    intros [= _ <-].
    split; [done|]. split; [by left | intros [?|?]; [done|lia]].
Qed.

Lemma subs_decoration_imports `{Externals} (k : string) (subss : list subs_t)
    (sd : subscript_dict) (g g' : globals) (dec : string * string) :
  subs_decoration k subss sd g = (Ok dec, g') →
  ∃ first_subs : subs_t,
    subss !! 0 = Some first_subs
    ∧ subs_flag (import_modules g')
      = subs_flag (import_modules g)
        || (bool_decide (k ∈ ["component"; "setup"]) && subs_given first_subs)
    ∧ utils (import_modules g') = utils (import_modules g)
    ∧ (dec.1 ≠ "" ↔ k ∈ ["component"; "setup"] ∧ subs_given first_subs = true).
Proof.
  unfold subs_decoration, bind, lift, index, ret.
  destruct (subss !! 0) as [s|]; [|discriminate].
  destruct (subs_given s) eqn:Hgiven; [case_bool_decide as Hk|]; cbn;
    intros [= <- <-]; exists s; cbn;
    rewrite ?Hgiven, ?orb_true_r, ?orb_false_r, ?andb_false_r, ?orb_false_r;
    (split; [done|]); (split; [done|]); (split; [done|]).
  - split; [done|]. intros _ Hempty. vm_compute in Hempty. discriminate Hempty.
  - split; [done|]. by intros [? _].
  - split; [done|]. by intros [_ ?].
Qed.

(** X16: what a call of [build_element] that returns has imported.  The
    [subs] decorator is required exactly when the element is a [component]
    or a [setup] whose first fragment carries subscripts, so a subscripted
    constant, lookup or stateful object gets none; [xrmerge] is required as
    soon as two fragments are free of [ADD], whatever the kind of the
    element, hence also for a stateful or external object whose statement
    shows the first fragment only. *)
Theorem build_element_imports `{Externals} (element : merged_element)
    (sd : subscript_dict) (g g' : globals) (text : string) :
  build_element element sd g = (Ok text, g') →
  ∃ first_subs : subs_t,
    subs element !! 0 = Some first_subs
    ∧ subs_flag (import_modules g')
      = subs_flag (import_modules g)
        || (bool_decide (kind element ∈ ["component"; "setup"])
            && subs_given first_subs)
    ∧ ("xrmerge" ∈ utils (import_modules g')
       ↔ "xrmerge" ∈ utils (import_modules g)
         ∨ 1 < sum_bools (no_ADD (py_expr element))).
Proof.
  unfold build_element. unfold bind at 1, lift.
  destruct (cache_type_of (kind element)) as [cache|err]; [|discriminate].
  unfold bind at 1.
  destruct (element_expression _ _ sd g) as [[e|err] g1] eqn:Hexpr; [|discriminate].
  unfold bind at 1.
  destruct (subs_decoration _ _ sd g1) as [[dec|err] g2] eqn:Hdec; [|discriminate].
  intros Hrest. assert (g' = g2) as ->.
  { revert Hrest. unfold bind, lift, ret, index.
    repeat case_bool_decide; destruct (py_expr element !! 0); congruence. }
  apply element_expression_imports in Hexpr as [Hflag Hutil].
  apply subs_decoration_imports in Hdec as (s & Hs & Hflag' & Hutil' & _).
  exists s. split; [done|]. split; [by rewrite Hflag', Hflag|].
  by rewrite Hutil', Hutil.
Qed.

(** ** The further properties at concrete inputs *)

Lemma build_success_resets_witness :
  ∃ (out : build_output) (g' : globals),
    @build Reference.externals [Cases.rate] Examples.sd [] "return" initial_globals
      = (Ok out, g')
    ∧ build_names g' = ∅
    ∧ import_modules g' = empty_imports.
Proof.
  destruct (@build Reference.externals [Cases.rate] Examples.sd [] "return"
              initial_globals) as [[out|err] g'] eqn:Hbuild.
  - exists out, g'. split; [reflexivity|].
    destruct (@build_success_resets Reference.externals [Cases.rate] Examples.sd []
                "return" initial_globals g' out Hbuild) as (Hnames & Himports & _).
    split; [exact Hnames | exact Himports].
  - vm_compute in Hbuild. discriminate Hbuild.
Defined.

Lemma build_failure_registries_witness :
  (∃ (err : error) (g' : globals),
     @build Reference.externals [Examples.stray] Examples.sd [] "return" initial_globals
       = (Err err, g')
     ∧ assembler_frame initial_globals g')
  ∧ ∃ (err : error) (g' : globals),
      @build Reference.externals [Cases.rate] Examples.sd [] "" Cases.busy = (Err err, g')
      ∧ "_ext_data_x" ∈ build_names Cases.busy
      ∧ build_names g' = ∅.
Proof.
  split.
  - destruct (@build Reference.externals [Examples.stray] Examples.sd [] "return"
                initial_globals) as [[out|err] g'] eqn:Hbuild.
    + vm_compute in Hbuild. discriminate Hbuild.
    + exists err, g'. split; [reflexivity|].
      destruct (@build_failure_registries Reference.externals [Examples.stray]
                  Examples.sd [] "return" initial_globals g' err Hbuild)
        as [[Hframe _] | [Hout _]]; [exact Hframe|].
      exfalso. apply Hout. reflexivity.
  - assert ("_ext_data_x" ∈ build_names Cases.busy) as Hbusy
      by (vm_compute; reflexivity).
    destruct (@build Reference.externals [Cases.rate] Examples.sd [] "" Cases.busy)
      as [[out|err] g'] eqn:Hbuild.
    + vm_compute in Hbuild. discriminate Hbuild.
    + exists err, g'. split; [reflexivity|]. split; [exact Hbusy|].
      destruct (@build_failure_registries Reference.externals [Cases.rate] Examples.sd
                  [] "" Cases.busy g' err Hbuild)
        as [[Hframe [Helements | [text Hblack]]] | (_ & Hnames & _)].
      * exfalso. vm_compute in Helements. discriminate Helements.
      * exfalso. discriminate Hblack.
      * exact Hnames.
Defined.

Lemma merged_elements_assemble_witness :
  Forall (λ e, py_expr e ≠ "None" → is_Some (Spec.policy_of (kind e)))
    [Cases.rate; Cases.blank]
  ∧ (∃ (funcs : list string) (g' : globals),
       @build_elements Reference.externals
         (merge_partial_elements [Cases.rate; Cases.blank]) Examples.sd initial_globals
         = (Ok funcs, g')
       ∧ length funcs = length (merge_partial_elements [Cases.rate; Cases.blank]))
  ∧ ∀ (err : error) (g' : globals),
      @build Reference.externals [Cases.rate; Cases.blank] Examples.sd [] "return"
        initial_globals = (Err err, g') →
      ∃ text : string, @black_format Reference.externals text = Err err.
Proof.
  assert (Forall (λ e, py_expr e ≠ "None" → is_Some (Spec.policy_of (kind e)))
            [Cases.rate; Cases.blank]) as Hkinds.
  { repeat constructor; intros _; eexists; reflexivity. }
  split; [exact Hkinds|].
  destruct (@merged_elements_assemble Reference.externals [Cases.rate; Cases.blank]
              Examples.sd [] "return" initial_globals Hkinds) as [Hall Hraise].
  split; [exact Hall|].
  intros err g' Hbuild.
  destruct (Hraise err g' Hbuild) as [Hblack | [Hout _]]; [exact Hblack|].
  exfalso. apply Hout. reflexivity.
Defined.

Lemma dropped_fragments_leave_no_trace_witness :
  Forall (λ e, py_expr e = "None") [Cases.blank; Cases.blank]
  ∧ merge_partial_elements [Cases.blank; Cases.blank] = [].
Proof.
  assert (Forall (λ e, py_expr e = "None") [Cases.blank; Cases.blank]) as Hnone
    by (repeat constructor).
  split; [exact Hnone|].
  exact (proj2 (dropped_fragments_leave_no_trace [Cases.blank; Cases.blank]) Hnone).
Defined.

Lemma implicit_initializers_collide_witness :
  "10" ≠ "None"
  ∧ "0" ≠ "None"
  ∧ ∃ (stock delay : string * list element) (g1 g2 : globals),
      add_stock "x" "inflow()" "10" ["dim"] Examples.sd initial_globals = (Ok stock, g1)
      ∧ add_n_delay "x" "inflow()" "3" "0" "1" ["dim"] Examples.sd g1 = (Ok delay, g2)
      ∧ ∃ m : merged_element,
          m ∈ merge_partial_elements (stock.2 ++ delay.2)
          ∧ py_name m = "_init_x"
          ∧ py_expr m = ["10"; "0"]
          ∧ subs m = [SubsList ["dim"]; SubsList ["dim"]]
          ∧ kind m = "setup".
Proof.
  split; [discriminate|]. split; [discriminate|].
  exact (implicit_initializers_collide "x" "inflow()" "10" "inflow()" "3" "0" "1"
           "dim" [] "dim" [] Examples.sd initial_globals
           ltac:(discriminate) ltac:(discriminate)).
Defined.

Lemma add_macro_surplus_values_witness :
  length ["input"] ≤ length ["a"]
  ∧ ∃ (e e' : element) (g1 g2 : globals),
      @add_macro Reference.externals "m" "m.py" ["input"] ["a"; "b"] initial_globals
        = (Ok (py_name e +:+ "()", [e]), g1)
      ∧ @add_macro Reference.externals "m" "m.py" ["input"] ["a"] initial_globals
        = (Ok (py_name e' +:+ "()", [e']), g2)
      ∧ py_expr e = py_expr e'
      ∧ py_name e = "_macro_m_a_b"
      ∧ py_name e' = "_macro_m_a".
Proof.
  split; [simpl; lia|].
  exact (@add_macro_surplus_values Reference.externals "m" "m.py" ["input"] ["a"] ["b"]
           initial_globals (le_n 1)).
Defined.

Lemma optional_parameter_ends_the_walk_witness :
  length ["a"] ≤ 1
  ∧ build_function_call (FuncDict Cases.trailing) ["a"] initial_globals
    = (Ok "f(a)", initial_globals).
Proof.
  split; [simpl; lia|].
  exact (optional_parameter_ends_the_walk Cases.trailing ["a"] ["a"] initial_globals
           initial_globals initial_globals [ParameterDef None (Some "expression")]
           [ParameterDef None (Some "time")]
           (ParameterDef (Some true) (Some "expression")) 1 ["a"]
           eq_refl eq_refl eq_refl eq_refl (le_n 1) eq_refl).
Defined.


Lemma not_implemented_function_call_witness :
  name Cases.untranslated = "not_implemented_function"
  ∧ ∃ msg : string,
      build_function_call (FuncDict Cases.untranslated) ["x"] initial_globals
        = (Ok "not_implemented_function('GAME',x)",
           Globals ∅ empty_imports [msg])
      ∧ Str.contains "GAME" msg = true.
Proof.
  split; [reflexivity|].
  exact (not_implemented_function_call Cases.untranslated ["x"] initial_globals
           eq_refl eq_refl eq_refl).
Defined.

Lemma function_call_imports_once_witness :
  ∃ g1 g2 : globals,
    build_function_call (FuncDict Cases.absolute) ["x"] initial_globals
      = (Ok "np.abs(x)", g1)
    ∧ build_function_call (FuncDict Cases.absolute) ["x"] g1 = (Ok "np.abs(x)", g2)
    ∧ import_modules g2 = import_modules g1.
Proof.
  eexists _.
  destruct (function_call_imports_once (FuncDict Cases.absolute) ["x"] initial_globals
              _ "np.abs(x)" eq_refl) as (g2 & Hagain & Himports & _).
  exists g2. split; [reflexivity|]. split; [exact Hagain | exact Himports].
Defined.

Lemma function_call_errors_witness :
  build_function_call (FuncDict Examples.clock) [] initial_globals
    = (Err IndexError, initial_globals)
  ∧ ∃ d : function_dict,
      FuncDict Examples.clock = FuncDict d ∧ is_Some (parameters d).
Proof.
  split; [reflexivity|].
  destruct (function_call_errors (FuncDict Examples.clock) [] initial_globals
              initial_globals IndexError eq_refl) as (d & Hd & _).
  exists d. split; [exact Hd|]. injection Hd as <-. by eexists.
Defined.

Lemma object_statement_text_witness :
  py_expr Cases.level = ["Integ(lambda: inflow(), lambda: 10)"]
  ∧ one_line (py_name Cases.level)
  ∧ starts_unindented (py_name Cases.level)
  ∧ (∃ g' : globals,
       @build_element Reference.externals Cases.level Examples.sd initial_globals
         = (Ok (Str.nl +:+ "_integ_level = Integ(lambda: inflow(), lambda: 10)"
                +:+ Str.nl), g'))
  ∧ ∃ g' : globals,
      @build_element Reference.externals Cases.added Examples.sd initial_globals
        = (Ok (Str.nl +:+ "_ext_data_x.add('data.xlsx', 'Sheet1', '1', 'B3')"
               +:+ Str.nl), g').
Proof.
  assert (starts_unindented (py_name Cases.level)) as Hlevel
    by (split; [reflexivity|discriminate]).
  assert (starts_unindented (py_name Cases.added)) as Hadded
    by (split; [reflexivity|discriminate]).
  split; [reflexivity|]. split; [reflexivity|]. split; [exact Hlevel|]. split.
  - destruct (proj1 (@object_statement_text Reference.externals Cases.level Examples.sd
                       initial_globals "Integ(lambda: inflow(), lambda: 10)" []
                       eq_refl eq_refl eq_refl eq_refl Hlevel)
                ltac:(left)) as [g' Hrun].
    exists g'. exact Hrun.
  - destruct (proj2 (@object_statement_text Reference.externals Cases.added Examples.sd
                       initial_globals ".add('data.xlsx', 'Sheet1', '1', 'B3')" []
                       eq_refl eq_refl eq_refl eq_refl Hadded)
                eq_refl "_ext_data_x" "1" eq_refl eq_refl ltac:(discriminate))
      as [g' Hrun].
    exists g'. exact Hrun.
Defined.

Lemma build_element_imports_witness :
  ∃ (text : string) (g' : globals),
    @build_element Reference.externals Cases.flow Examples.sd initial_globals
      = (Ok text, g')
    ∧ subs_flag (import_modules g') = true
    ∧ ("xrmerge" ∉ utils (import_modules g')).
Proof.
  destruct (@build_element Reference.externals Cases.flow Examples.sd initial_globals)
    as [[text|err] g'] eqn:Hbuild.
  - exists text, g'. split; [reflexivity|].
    destruct (@build_element_imports Reference.externals Cases.flow Examples.sd
                initial_globals g' text Hbuild) as (s & Hs & Hflag & Hmerge).
    injection Hs as <-. split; [exact Hflag|].
    intros Hin. apply Hmerge in Hin as [Hin|Hmany].
    + by apply elem_of_empty in Hin.
    + vm_compute in Hmany. lia.
  - vm_compute in Hbuild. discriminate Hbuild.
Defined.
